(** * LifeStory API: seasons, episodes and their two consistency rules

    A shallow embedding of [main.py] (the FastAPI handlers) and of the
    models of [schemas.py], with the theorems that settle the properties
    stated about them.

    Layout: Part I holds every definition (strings, ObjectId, the pydantic
    models, the document store, the handlers); Part II holds the lemmas and
    the theorems of the stated properties; Part III holds further
    properties of the handlers. *)

From Stdlib Require Import String Ascii.
From Stdlib Require Strings.Byte.
From Stdlib Require Import List Bool Arith ZArith NArith Lia Eqdep_dec.
Import ListNotations.

Set Implicit Arguments.

(* ################################################################# *)
(** * Part I: definitions *)

(* ================================================================= *)
(** ** Python strings *)

(** A Python [str] is a sequence of Unicode code points; [len] and slicing
    count code points, which matters for the [str(e)[:60]] of the
    diagnostic handler, whose literals are not ASCII. *)
Definition str := list N.

(** An ASCII literal of the source, as a [str]. *)
Definition lit (s : string) : str :=
  map N_of_ascii (list_ascii_of_string s).

Definition str_eqb (a b : str) : bool :=
  if list_eq_dec N.eq_dec a b then true else false.

(** [s[:n]]: the slice of the first [n] code points. *)
Definition slice_to (n : nat) (s : str) : str := firstn n s.

(* ================================================================= *)
(** ** bson.ObjectId *)

(** [bson] is a third-party package: it is modelled by what it does.
    [ObjectId(s)] takes a [str] of exactly 24 characters and keeps
    [bytes.fromhex(s)], raising [InvalidId] when the length is another or
    [fromhex] fails; [str(oid)] is the lower-case hexadecimal form of the
    bytes.  An identifier the store generates holds 12 bytes. *)

Definition byte := Byte.byte.

Definition hexval (c : N) : option N :=
  (if (48 <=? c) && (c <=? 57) then Some (c - 48)
   else if (97 <=? c) && (c <=? 102) then Some (c - 87)
   else if (65 <=? c) && (c <=? 70) then Some (c - 55)
   else None)%N.

Definition hexdigit (n : N) : N :=
  (if n <? 10 then 48 + n else 87 + n)%N.

(** ASCII whitespace: the blank and the characters 9 to 13. *)
Definition isspace (c : N) : bool :=
  ((c =? 32) || ((9 <=? c) && (c <=? 13)))%N.

(** [bytes.fromhex]: pairs of hexadecimal digits, of either case; ASCII
    whitespace is skipped before a pair and at the end, not inside a
    pair; [None] stands for [ValueError]. *)
Fixpoint fromhex (s : str) : option (list byte) :=
  match s with
  | [] => Some []
  | c :: rest =>
      if isspace c then fromhex rest
      else
        match rest with
        | [] => None
        | lo :: rest' =>
            match hexval c, hexval lo, fromhex rest' with
            | Some h, Some l, Some bs =>
                match Byte.of_N (16 * h + l)%N with
                | Some b => Some (b :: bs)
                | None => None
                end
            | _, _, _ => None
            end
        end
  end.

(** [binascii.hexlify(..).decode()]. *)
Definition hexlify (bs : list byte) : str :=
  flat_map (fun b => [hexdigit (Byte.to_N b / 16)%N; hexdigit (Byte.to_N b mod 16)%N]) bs.

Record ObjectId := mkObjectId {
  binary : list byte;
  binary_len : (length binary =? 12)%nat = true
}.

(** [ObjectId(oid)] for a [str] argument: the bytes the new object holds,
    [None] standing for [InvalidId].  They are fewer than 12 when the 24
    characters held whitespace. *)
Definition ObjectId_new (oid : str) : option (list byte) :=
  if (length oid =? 24)%nat then fromhex oid else None.

(** [ObjectId(oid)] when it is an identifier of 12 bytes, as those of the
    store are. *)
Definition ObjectId_init (oid : str) : option ObjectId :=
  match ObjectId_new oid with
  | Some bs =>
      match bool_dec (length bs =? 12)%nat true with
      | left H => Some (mkObjectId bs H)
      | right _ => None
      end
  | None => None
  end.

(** [str(oid)]. *)
Definition ObjectId_str (o : ObjectId) : str := hexlify (binary o).

Definition byte_list_eqb (a b : list byte) : bool :=
  if list_eq_dec Byte.byte_eq_dec a b then true else false.

(** [==] on ObjectIds compares the 12 bytes. *)
Definition oid_eqb (a b : ObjectId) : bool := byte_list_eqb (binary a) (binary b).

(* ================================================================= *)
(** ** The pydantic models of [main.py] and [schemas.py] *)

(** [datetime.date]. *)
Record datetime_date := mkDate { year : Z; month : Z; day : Z }.

(** One key of a JSON request body, as pydantic's type-level parsing sees
    it: absent, present but not readable at the declared type, or read as
    a value of that type.  For an [Optional] field the JSON [null] is the
    value [None]. *)
Inductive Parsed (A : Type) : Type :=
| Missing
| Unparsable
| Value (a : A).
Arguments Missing {A}.
Arguments Unparsable {A}.
Arguments Value {A} a.

Inductive ErrorKind := missing | wrong_type | greater_than_equal | less_than_equal.

(** The field-level detail of a validation error. *)
Record FieldError := mkFieldError { loc : string; kind : ErrorKind }.

(** [Field(...)]: a required field. *)
Definition field_required {A} (name : string) (p : Parsed A) : FieldError + A :=
  match p with
  | Missing => inl (mkFieldError name missing)
  | Unparsable => inl (mkFieldError name wrong_type)
  | Value a => inr a
  end.

(** [Field(d)] and [Field(default_factory=...)]: a field with a default. *)
Definition field_default {A} (name : string) (d : A) (p : Parsed A) : FieldError + A :=
  match p with
  | Missing => inr d
  | Unparsable => inl (mkFieldError name wrong_type)
  | Value a => inr a
  end.

Definition errors_of {A} (r : FieldError + A) : list FieldError :=
  match r with inl e => [e] | inr _ => [] end.

(** [SeasonIn] of [main.py] (the same fields as [Season] of [schemas.py]). *)
Module SeasonIn.
Record t := mk {
  title : str;
  description : option str;
  start_date : option datetime_date;
  end_date : option datetime_date;
  is_active : bool
}.

Definition set_is_active (b : bool) (m : t) : t :=
  mk (title m) (description m) (start_date m) (end_date m) b.
End SeasonIn.

(** The JSON body sent for a [SeasonIn]. *)
Module SeasonBody.
Record t := mk {
  title : Parsed str;
  description : Parsed (option str);
  start_date : Parsed (option datetime_date);
  end_date : Parsed (option datetime_date);
  is_active : Parsed bool
}.
End SeasonBody.

(** [SeasonIn.model_validate]: every field error is collected. *)
Definition validate_SeasonIn (b : SeasonBody.t) : list FieldError + SeasonIn.t :=
  let title := field_required "title" (SeasonBody.title b) in
  let description := field_default "description" None (SeasonBody.description b) in
  let start_date := field_default "start_date" None (SeasonBody.start_date b) in
  let end_date := field_default "end_date" None (SeasonBody.end_date b) in
  let is_active := field_default "is_active" true (SeasonBody.is_active b) in
  match title, description, start_date, end_date, is_active with
  | inr t, inr d, inr s, inr e, inr a => inr (SeasonIn.mk t d s e a)
  | _, _, _, _, _ =>
      inl (errors_of title ++ errors_of description ++ errors_of start_date
           ++ errors_of end_date ++ errors_of is_active)
  end.

(** [class SeasonOut(SeasonIn): id: str]. *)
Module SeasonOut.
Record t := mk { id : str; base : SeasonIn.t }.
End SeasonOut.

(** [ge=1, le=10]. *)
Definition rating_in_range (r : Z) : bool := ((1 <=? r) && (r <=? 10))%Z.

(** [EpisodeIn] of [main.py] (the same fields as [Episode] of
    [schemas.py]).  An instance of the model satisfies the constraints of
    its [Field] declarations: [rating_ok] is the [ge=1, le=10] of
    [rating]. *)
Module EpisodeIn.
Record t := mk {
  title : str;
  date : datetime_date;
  rating : Z;
  plot_points : list str;
  season_id : option str;
  rating_ok : rating_in_range rating = true
}.

Definition set_season_id (v : option str) (m : t) : t :=
  mk (title m) (date m) (rating m) (plot_points m) v (rating_ok m).
End EpisodeIn.

(** The JSON value sent under an [int] field.  A number written with a
    fraction or an exponent is kept as the whole part of its float value
    and whether that value has a fractional part; a string is kept as the
    integer its text spells for pydantic, if it spells one (["7"] spells
    7, ["seven"] none). *)
Inductive JsonValue :=
| JInt (z : Z)
| JFloat (whole : Z) (fractional : bool)
| JStr (spells : option Z)
| JBool (b : bool)
| JOther.

Definition is_json_integer (j : JsonValue) : bool :=
  match j with JInt _ => true | _ => false end.

(** pydantic validates in lax mode, the models setting no [strict]: an
    [int] field takes an integer, a float without fractional part, a
    string that spells an integer, and a boolean, read as 1 or 0. *)
Definition int_lax (j : JsonValue) : option Z :=
  match j with
  | JInt z => Some z
  | JFloat whole fractional => if fractional then None else Some whole
  | JStr spells => spells
  | JBool b => Some (if b then 1 else 0)%Z
  | JOther => None
  end.

(** The JSON body sent for an [EpisodeIn]; [rating] is [None] when the
    key is absent. *)
Module EpisodeBody.
Record t := mk {
  title : Parsed str;
  date : Parsed datetime_date;
  rating : option JsonValue;
  plot_points : Parsed (list str);
  season_id : Parsed (option str)
}.
End EpisodeBody.

(** The [rating] field: required, read as an [int], then [ge=1] and
    [le=10]. *)
Definition field_rating (p : option JsonValue)
  : FieldError + { r : Z | rating_in_range r = true } :=
  match p with
  | None => inl (mkFieldError "rating" missing)
  | Some j =>
      match int_lax j with
      | None => inl (mkFieldError "rating" wrong_type)
      | Some r =>
          match bool_dec (rating_in_range r) true with
          | left H => inr (exist _ r H)
          | right _ =>
              inl (mkFieldError "rating"
                     (if (r <? 1)%Z then greater_than_equal else less_than_equal))
          end
      end
  end.

(** [EpisodeIn.model_validate]. *)
Definition validate_EpisodeIn (b : EpisodeBody.t) : list FieldError + EpisodeIn.t :=
  let title := field_required "title" (EpisodeBody.title b) in
  let date := field_required "date" (EpisodeBody.date b) in
  let rating := field_rating (EpisodeBody.rating b) in
  let plot_points := field_default "plot_points" [] (EpisodeBody.plot_points b) in
  let season_id := field_default "season_id" None (EpisodeBody.season_id b) in
  match title, date, rating, plot_points, season_id with
  | inr t, inr d, inr (exist _ r H), inr p, inr s => inr (EpisodeIn.mk t d r p s H)
  | _, _, _, _, _ =>
      inl (errors_of title ++ errors_of date ++ errors_of rating
           ++ errors_of plot_points ++ errors_of season_id)
  end.

(** [class EpisodeOut(EpisodeIn): id: str]. *)
Module EpisodeOut.
Record t := mk { id : str; base : EpisodeIn.t }.
End EpisodeOut.

(* ================================================================= *)
(** ** Exceptions and the handler monad *)

Inductive result (E A : Type) : Type :=
| Return (a : A)
| Raise (e : E).
Arguments Return {E A} a.
Arguments Raise {E A} e.

(** A computation over a mutable state [S] that returns or raises. *)
Definition M (S E A : Type) : Type := S -> S * result E A.

Definition ret {S E A} (a : A) : M S E A := fun s => (s, Return a).

Definition raise {S E A} (e : E) : M S E A := fun s => (s, Raise e).

Definition bind {S E A B} (c : M S E A) (k : A -> M S E B) : M S E B :=
  fun s =>
    match c s with
    | (s', Return a) => k a s'
    | (s', Raise e) => (s', Raise e)
    end.

(** [try: body except Exception as e: handler]: the state changes made
    by [body] before it raised are kept. *)
Definition try_except {S E A} (body : M S E A) (handler : E -> M S E A) : M S E A :=
  fun s =>
    match body s with
    | (s', Return a) => (s', Return a)
    | (s', Raise e) => handler e s'
    end.

Declare Scope handler_scope.
Delimit Scope handler_scope with handler.
Notation "x <- c ;; k" := (bind c (fun x => k))
  (at level 61, c at next level, right associativity) : handler_scope.
Notation "c ;; k" := (bind c (fun _ => k))
  (at level 61, right associativity) : handler_scope.
Local Open Scope handler_scope.

(** What a route can raise. *)
Inductive Exception :=
| HTTPException (status_code : Z) (detail : str)
| RequestValidationError (errors : list FieldError)
| Unhandled (type_name : string).

(** The status FastAPI answers with. *)
Definition status_of {A} (r : result Exception A) : Z :=
  match r with
  | Return _ => 200
  | Raise (HTTPException code _) => code
  | Raise (RequestValidationError _) => 422
  | Raise (Unhandled _) => 500
  end.

(* ================================================================= *)
(** ** The document store *)

(** A stored document: the [_id] the store gave it and the fields of the
    dumped model. *)
Record Document (F : Type) := mkDocument { _id : ObjectId; fields : F }.

(** The pymongo collection methods the handlers call, on a collection in
    its natural (insertion) order. *)
Section Collection.
Variable F : Type.
Abbreviation doc := (Document F).

Definition set_fields (upd : F -> F) (d : doc) : doc :=
  mkDocument (_id d) (upd (fields d)).

Definition coll_find (q : doc -> bool) (c : list doc) : list doc := filter q c.

Definition coll_find_one (q : doc -> bool) (c : list doc) : option doc := find q c.

Definition coll_update_many (q : doc -> bool) (upd : F -> F) (c : list doc) : list doc :=
  map (fun d => if q d then set_fields upd d else d) c.

(** With [return_document=True] the document is returned as updated. *)
Fixpoint coll_find_one_and_update (q : doc -> bool) (upd : F -> F) (c : list doc)
  : list doc * option doc :=
  match c with
  | [] => ([], None)
  | d :: c' =>
      if q d then (set_fields upd d :: c', Some (set_fields upd d))
      else let (c'', r) := coll_find_one_and_update q upd c' in (d :: c'', r)
  end.

(** The collection left and [deleted_count]. *)
Fixpoint coll_delete_one (q : doc -> bool) (c : list doc) : list doc * nat :=
  match c with
  | [] => ([], 0)
  | d :: c' =>
      if q d then (c', 1)
      else let (c'', n) := coll_delete_one q c' in (d :: c'', n)
  end.

(** [_id] is unique in a collection: [None] stands for [DuplicateKeyError]. *)
Definition coll_insert_one (d : doc) (c : list doc) : option (list doc) :=
  if existsb (fun x => oid_eqb (_id x) (_id d)) c then None else Some (c ++ [d]).

(** The filter [{}]. *)
Definition all_docs : doc -> bool := fun _ => true.

(** The filter [{"_id": oid}]. *)
Definition by_id (oid : ObjectId) : doc -> bool := fun d => oid_eqb (_id d) oid.

(** The filter [{"_id": oid}] for an ObjectId built from a string, given
    by the bytes it holds: the documents whose [_id] holds those bytes. *)
Definition by_binary (bs : list byte) : doc -> bool :=
  fun d => byte_list_eqb (binary (_id d)) bs.
End Collection.
Arguments all_docs {F}.
Arguments by_id {F} oid.
Arguments by_binary {F} bs.

Definition option_str_eqb (a b : option str) : bool :=
  match a, b with
  | None, None => true
  | Some x, Some y => str_eqb x y
  | _, _ => false
  end.

(** The filter [{"season_id": v}] on episodes; [v = None] selects the
    episodes whose [season_id] is null. *)
Definition by_season_id (v : option str) : Document EpisodeIn.t -> bool :=
  fun d => option_str_eqb (EpisodeIn.season_id (fields d)) v.

(** The two collections, [db["season"]] and [db["episode"]]. *)
Record Database := mkDatabase {
  season : list (Document SeasonIn.t);
  episode : list (Document EpisodeIn.t)
}.

(** bson has no encoding for a [datetime.date]: pymongo raises
    [InvalidDocument] for a document that holds one.  It encodes [None],
    booleans, integers of this size, strings and lists of strings. *)
Definition date_encodes (d : datetime_date) : bool := false.

Definition optional_date_encodes (d : option datetime_date) : bool :=
  match d with
  | None => true
  | Some d => date_encodes d
  end.

(** Whether pymongo can encode the dumped model, which [model_dump()]
    leaves with its [datetime.date] values. *)
Definition SeasonIn_encodes (data : SeasonIn.t) : bool :=
  optional_date_encodes (SeasonIn.start_date data)
  && optional_date_encodes (SeasonIn.end_date data).

Definition EpisodeIn_encodes (data : EpisodeIn.t) : bool :=
  date_encodes (EpisodeIn.date data).

(** A collection of the database, addressed by its name, with whether a
    dumped model of its kind can be encoded. *)
Record Coll (F : Type) := mkColl {
  cname : string;
  get : Database -> list (Document F);
  put : list (Document F) -> Database -> Database;
  encodes : F -> bool
}.

Definition db_season : Coll SeasonIn.t :=
  mkColl "season" season (fun c d => mkDatabase c (episode d)) SeasonIn_encodes.

Definition db_episode : Coll EpisodeIn.t :=
  mkColl "episode" episode (fun c d => mkDatabase (season d) c) EpisodeIn_encodes.

(** One call to the store, with the collection it went to and what it
    found. *)
Inductive StoreCall :=
| CallFind (c : string)
| CallFindOne (c : string) (found : bool)
| CallInsertOne (c : string) (inserted : bool)
| CallUpdateMany (c : string)
| CallFindOneAndUpdate (c : string) (found : bool)
| CallDeleteOne (c : string) (deleted_count : nat).

(** The state a handler runs in: the connected database and the record of
    the store calls made so far. *)
Record World := mkWorld { db : Database; trace : list StoreCall }.

Definition Handler (A : Type) : Type := M World Exception A.

Definition is_some {A} (o : option A) : bool :=
  match o with Some _ => true | None => false end.

Section StoreCalls.
Variable F : Type.
Variable c : Coll F.

Definition find_one (q : Document F -> bool) : Handler (option (Document F)) :=
  fun w =>
    let r := coll_find_one q (get c (db w)) in
    (mkWorld (db w) (trace w ++ [CallFindOne (cname c) (is_some r)]), Return r).

Definition update_many (q : Document F -> bool) (upd : F -> F) : Handler unit :=
  fun w =>
    (mkWorld (put c (coll_update_many q upd (get c (db w))) (db w))
             (trace w ++ [CallUpdateMany (cname c)]),
     Return tt).

(** [find_one_and_update(filter, {"$set": data}, return_document=True)]:
    the command is encoded before it is sent, so data that cannot be
    encoded raises and the store is not reached. *)
Definition find_one_and_update (q : Document F -> bool) (data : F)
  : Handler (option (Document F)) :=
  fun w =>
    if encodes c data then
      let (c', r) := coll_find_one_and_update q (fun _ => data) (get c (db w)) in
      (mkWorld (put c c' (db w))
               (trace w ++ [CallFindOneAndUpdate (cname c) (is_some r)]),
       Return r)
    else (w, Raise (Unhandled "InvalidDocument")).

Definition delete_one (q : Document F -> bool) : Handler nat :=
  fun w =>
    let (c', n) := coll_delete_one q (get c (db w)) in
    (mkWorld (put c c' (db w)) (trace w ++ [CallDeleteOne (cname c) n]), Return n).

(** Modelled from the spec: [create_document] of [database.py], which is
    not among the sources.  It inserts the document under an identifier
    generated by the server, [new_oid] here, and returns the string form
    of that identifier.  The store refuses an [_id] it already holds. *)
Definition create_document (new_oid : ObjectId) (data : F) : Handler str :=
  fun w =>
    match coll_insert_one (mkDocument new_oid data) (get c (db w)) with
    | Some c' =>
        (mkWorld (put c c' (db w)) (trace w ++ [CallInsertOne (cname c) true]),
         Return (ObjectId_str new_oid))
    | None =>
        (mkWorld (db w) (trace w ++ [CallInsertOne (cname c) false]),
         Raise (Unhandled "DuplicateKeyError"))
    end.

(** Modelled from the spec: [get_documents] of [database.py], which is
    not among the sources.  It returns all the documents that match the
    filter, the empty filter matching every document. *)
Definition get_documents (q : Document F -> bool) : Handler (list (Document F)) :=
  fun w =>
    (mkWorld (db w) (trace w ++ [CallFind (cname c)]),
     Return (coll_find q (get c (db w)))).
End StoreCalls.

(* ================================================================= *)
(** ** Utilities *)

(** [to_str_id]: the document with its [_id] popped and put back, as a
    string, under [id].  No other field of a season or an episode holds an
    ObjectId. *)
Definition to_str_id {F} (doc : Document F) : str * F :=
  (ObjectId_str (_id doc), fields doc).

(** [SeasonOut] and [EpisodeOut] built from the keys of the dict that
    [to_str_id] returns. *)
Definition SeasonOut_init (d : str * SeasonIn.t) : SeasonOut.t :=
  SeasonOut.mk (fst d) (snd d).

Definition EpisodeOut_init (d : str * EpisodeIn.t) : EpisodeOut.t :=
  EpisodeOut.mk (fst d) (snd d).

(** The body [{"status": "ok"}]. *)
Inductive Ack := status_ok.

(* ================================================================= *)
(** ** Season routes *)

Definition list_seasons : Handler (list SeasonOut.t) :=
  items <- get_documents db_season all_docs ;;
  ret (map (fun i => SeasonOut_init (to_str_id i)) items).

(** [new_oid] is the identifier the store generates for the insertion;
    [oid] below is [ObjectId(new_id)], by the bytes it holds. *)
Definition create_season (new_oid : ObjectId) (payload : SeasonIn.t)
  : Handler SeasonOut.t :=
  let data := payload in
  (if SeasonIn.is_active data
   then update_many db_season all_docs (SeasonIn.set_is_active false)
   else ret tt) ;;
  new_id <- create_document db_season new_oid data ;;
  match ObjectId_new new_id with
  | None => raise (Unhandled "InvalidId")
  | Some oid =>
      created <- find_one db_season (by_binary oid) ;;
      match created with
      | None => raise (Unhandled "TypeError")
      | Some doc => ret (SeasonOut_init (to_str_id doc))
      end
  end.

Definition update_season (season_id : str) (payload : SeasonIn.t)
  : Handler SeasonOut.t :=
  match ObjectId_new season_id with
  | None => raise (HTTPException 400 (lit "Invalid season id"))
  | Some oid =>
      let data := payload in
      (if SeasonIn.is_active data
       then update_many db_season all_docs (SeasonIn.set_is_active false)
       else ret tt) ;;
      res <- find_one_and_update db_season (by_binary oid) data ;;
      match res with
      | None => raise (HTTPException 404 (lit "Season not found"))
      | Some doc => ret (SeasonOut_init (to_str_id doc))
      end
  end.

Definition delete_season (season_id : str) : Handler Ack :=
  match ObjectId_new season_id with
  | None => raise (HTTPException 400 (lit "Invalid season id"))
  | Some oid =>
      deleted_count <- delete_one db_season (by_binary oid) ;;
      if (deleted_count =? 0)%nat
      then raise (HTTPException 404 (lit "Season not found"))
      else
        update_many db_episode (by_season_id (Some season_id))
                    (EpisodeIn.set_season_id None) ;;
        ret status_ok
  end.

(* ================================================================= *)
(** ** Episode routes *)

(** The filter for the query dict [q], which is [{}] or holds the one key
    [season_id]. *)
Definition season_id_query (q : option (option str)) : Document EpisodeIn.t -> bool :=
  match q with
  | None => all_docs
  | Some v => by_season_id v
  end.

Definition list_episodes (season_id : option str) (unsorted : bool)
  : Handler (list EpisodeOut.t) :=
  let q :=
    if unsorted then Some None
    else match season_id with
         | Some s => Some (Some s)
         | None => None
         end in
  items <- get_documents db_episode (season_id_query q) ;;
  ret (map (fun i => EpisodeOut_init (to_str_id i)) items).

Definition create_episode (new_oid : ObjectId) (payload : EpisodeIn.t)
  : Handler EpisodeOut.t :=
  let data := payload in
  new_id <- create_document db_episode new_oid data ;;
  match ObjectId_new new_id with
  | None => raise (Unhandled "InvalidId")
  | Some oid =>
      created <- find_one db_episode (by_binary oid) ;;
      match created with
      | None => raise (Unhandled "TypeError")
      | Some doc => ret (EpisodeOut_init (to_str_id doc))
      end
  end.

Definition update_episode (episode_id : str) (payload : EpisodeIn.t)
  : Handler EpisodeOut.t :=
  match ObjectId_new episode_id with
  | None => raise (HTTPException 400 (lit "Invalid episode id"))
  | Some oid =>
      let data := payload in
      res <- find_one_and_update db_episode (by_binary oid) data ;;
      match res with
      | None => raise (HTTPException 404 (lit "Episode not found"))
      | Some doc => ret (EpisodeOut_init (to_str_id doc))
      end
  end.

Definition delete_episode (episode_id : str) : Handler Ack :=
  match ObjectId_new episode_id with
  | None => raise (HTTPException 400 (lit "Invalid episode id"))
  | Some oid =>
      deleted_count <- delete_one db_episode (by_binary oid) ;;
      if (deleted_count =? 0)%nat
      then raise (HTTPException 404 (lit "Episode not found"))
      else ret status_ok
  end.

(* ================================================================= *)
(** ** The routes as FastAPI runs them *)

(** A route whose parameter is a model: the body is validated first, and
    the handler runs only on a valid model. *)
Definition with_body {B P A} (validate : B -> list FieldError + P)
    (handler : P -> Handler A) (body : B) : Handler A :=
  match validate body with
  | inl errors => raise (RequestValidationError errors)
  | inr payload => handler payload
  end.

Definition post_seasons (new_oid : ObjectId) : SeasonBody.t -> Handler SeasonOut.t :=
  with_body validate_SeasonIn (create_season new_oid).

Definition patch_seasons (season_id : str) : SeasonBody.t -> Handler SeasonOut.t :=
  with_body validate_SeasonIn (update_season season_id).

Definition post_episodes (new_oid : ObjectId) : EpisodeBody.t -> Handler EpisodeOut.t :=
  with_body validate_EpisodeIn (create_episode new_oid).

Definition patch_episodes (episode_id : str) : EpisodeBody.t -> Handler EpisodeOut.t :=
  with_body validate_EpisodeIn (update_episode episode_id).

(* ================================================================= *)
(** ** Basic routes *)

Definition read_root : str := lit "LifeStory Backend is running".

(** A Python exception raised by the database object, with its [str(e)]. *)
Record PyException := mkPyException { exc_type : string; exc_str : str }.

(** Reading an attribute of an object: it is there, it is not
    ([AttributeError]), or reading it raises something else. *)
Inductive Attr :=
| AttrValue (v : str)
| AttrMissing
| AttrRaises (e : PyException).

(** What [test_database] uses of the global [db] when it is not [None]:
    its [name] attribute and the outcome of [list_collection_names()]. *)
Record DbObject := mkDbObject {
  name : Attr;
  list_collection_names : PyException + list str
}.

(** The dict [response]. *)
Record TestResponse := mkTestResponse {
  backend : str;
  database : str;
  database_url : str;
  database_name : str;
  connection_status : str;
  collections : list str
}.

Definition check_mark : str := [0x2705%N].
Definition cross_mark : str := [0x274C%N].
Definition warning_sign : str := [0x26A0%N; 0xFE0F%N].

Definition Diag (A : Type) : Type := M TestResponse PyException A.

Definition set_database (v : str) : Diag unit :=
  fun r => (mkTestResponse (backend r) v (database_url r) (database_name r)
                           (connection_status r) (collections r), Return tt).

Definition set_database_url (v : str) : Diag unit :=
  fun r => (mkTestResponse (backend r) (database r) v (database_name r)
                           (connection_status r) (collections r), Return tt).

Definition set_database_name (v : str) : Diag unit :=
  fun r => (mkTestResponse (backend r) (database r) (database_url r) v
                           (connection_status r) (collections r), Return tt).

Definition set_connection_status (v : str) : Diag unit :=
  fun r => (mkTestResponse (backend r) (database r) (database_url r) (database_name r)
                           v (collections r), Return tt).

Definition set_collections (v : list str) : Diag unit :=
  fun r => (mkTestResponse (backend r) (database r) (database_url r) (database_name r)
                           (connection_status r) v, Return tt).

(** [getattr(obj, name, default)]: only [AttributeError] gives the default. *)
Definition getattr (a : Attr) (default : str) : Diag str :=
  match a with
  | AttrValue v => ret v
  | AttrMissing => ret default
  | AttrRaises e => raise e
  end.

Definition call {A} (outcome : PyException + A) : Diag A :=
  match outcome with
  | inl e => raise e
  | inr a => ret a
  end.

Definition initial_response : TestResponse :=
  mkTestResponse (check_mark ++ lit " Running")
                 (cross_mark ++ lit " Not Available")
                 (cross_mark ++ lit " Not Set")
                 (cross_mark ++ lit " Not Set")
                 (lit "Not Connected")
                 [].

(** [test_database], for the value [db] of the global: [None] when no
    connection is configured. *)
Definition test_database (db : option DbObject) : result PyException TestResponse :=
  let response := initial_response in
  let body : Diag unit :=
    try_except
      (match db with
       | None => ret tt
       | Some d =>
           set_database (check_mark ++ lit " Connected & Working") ;;
           set_database_url (check_mark ++ lit " Set") ;;
           n <- getattr (name d) (check_mark ++ lit " Connected") ;;
           set_database_name n ;;
           set_connection_status (lit "Connected") ;;
           try_except
             (names <- call (list_collection_names d) ;;
              set_collections names)
             (fun e =>
                set_database (warning_sign ++ lit " Connected but Error: "
                              ++ slice_to 60 (exc_str e)))
       end)
      (fun e => set_database (cross_mark ++ lit " Error: " ++ slice_to 60 (exc_str e))) in
  match body response with
  | (response', Return _) => Return response'
  | (_, Raise e) => Raise e
  end.

(* ================================================================= *)
(** ** Vocabulary of the statements *)

(** The seasons of a collection that are marked active. *)
Definition active (c : list (Document SeasonIn.t)) : list (Document SeasonIn.t) :=
  filter (fun d => SeasonIn.is_active (fields d)) c.

(** A season as [{"$set": {"is_active": False}}] leaves it. *)
Abbreviation deactivate := (set_fields (SeasonIn.set_is_active false)).

(** The world after the conditional [update_many] that opens
    [create_season] and [update_season]. *)
Definition after_guard (payload : SeasonIn.t) (w : World) : World :=
  if SeasonIn.is_active payload
  then mkWorld (mkDatabase (map deactivate (season (db w))) (episode (db w)))
               (trace w ++ [CallUpdateMany "season"])
  else w.

(** A document with this identifier is stored in the collection. *)
Definition stored {F} (oid : ObjectId) (c : list (Document F)) : bool :=
  existsb (by_id oid) c.

Definition is_none {A} (o : option A) : bool :=
  match o with None => true | Some _ => false end.

Definition option_str_dec (a b : option str) : {a = b} + {a <> b}.
Proof. decide equality. apply (list_eq_dec N.eq_dec). Defined.

(** An episode and what it is after a step: the same document, except
    that a [season_id] equal to [sid] has become null. *)
Definition orphaned (sid : str) (e e' : Document EpisodeIn.t) : Prop :=
  _id e' = _id e /\
  EpisodeIn.title (fields e') = EpisodeIn.title (fields e) /\
  EpisodeIn.date (fields e') = EpisodeIn.date (fields e) /\
  EpisodeIn.rating (fields e') = EpisodeIn.rating (fields e) /\
  EpisodeIn.plot_points (fields e') = EpisodeIn.plot_points (fields e) /\
  (EpisodeIn.season_id (fields e) = Some sid -> EpisodeIn.season_id (fields e') = None) /\
  (EpisodeIn.season_id (fields e) <> Some sid -> e' = e).

(** The rating of a body is present and reads, in lax mode, as an integer
    of the inclusive range 1 to 10. *)
Definition rating_acceptable (p : option JsonValue) : Prop :=
  exists j r, p = Some j /\ int_lax j = Some r /\ (1 <= r <= 10)%Z.

(* ================================================================= *)
(** ** Sample data *)

Definition oid_a : ObjectId := mkObjectId (repeat Byte.x0a 12) eq_refl.
Definition oid_b : ObjectId := mkObjectId (repeat Byte.x0b 12) eq_refl.
Definition oid_c : ObjectId := mkObjectId (repeat Byte.x0c 12) eq_refl.
Definition oid_e : ObjectId := mkObjectId (repeat Byte.x0e 12) eq_refl.

Definition year_one : SeasonIn.t :=
  SeasonIn.mk (lit "Year One") None None None true.

Definition year_two : SeasonIn.t :=
  SeasonIn.mk (lit "Year Two") None None None true.

Definition sabbatical : SeasonIn.t :=
  SeasonIn.mk (lit "Sabbatical") (Some (lit "a quiet one")) None None false.

Definition day_1 : EpisodeIn.t :=
  EpisodeIn.mk (lit "Day 1") (mkDate 2024 1 1) 7 [lit "woke up"]
               (Some (ObjectId_str oid_b)) eq_refl.

Definition day_2 : EpisodeIn.t :=
  EpisodeIn.mk (lit "Day 2") (mkDate 2024 1 2) 4 [] None eq_refl.

(** Two seasons, both active, and two episodes, one of the second season. *)
Definition sample_db : Database :=
  mkDatabase [mkDocument oid_a year_one; mkDocument oid_b year_two]
             [mkDocument oid_e day_1; mkDocument oid_c day_2].

Definition sample_world : World := mkWorld sample_db [].

Definition empty_world : World := mkWorld (mkDatabase [] []) [].

Definition untitled_body : SeasonBody.t :=
  SeasonBody.mk (Value []) Missing Missing Missing Missing.

Definition day_3_body (rating : option JsonValue) : EpisodeBody.t :=
  EpisodeBody.mk (Value (lit "Day 3")) (Value (mkDate 2024 1 3)) rating Missing Missing.

Definition failing_db : DbObject :=
  mkDbObject (AttrValue (lit "lifestory"))
             (inl (mkPyException "ServerSelectionTimeoutError" (repeat 120%N 100))).

(* ================================================================= *)
(** ** Vocabulary of the further properties *)

(** No two documents of a collection share their [_id]. *)
Definition unique_ids (w : World) : Prop :=
  NoDup (map (@_id SeasonIn.t) (season (db w))) /\
  NoDup (map (@_id EpisodeIn.t) (episode (db w))).

(** At most one stored season is marked active. *)
Definition at_most_one_active (w : World) : Prop :=
  length (active (season (db w))) <= 1.

(** The entry of a listing for a stored document. *)
Definition season_out (d : Document SeasonIn.t) : SeasonOut.t :=
  SeasonOut.mk (ObjectId_str (_id d)) (fields d).

Definition episode_out (d : Document EpisodeIn.t) : EpisodeOut.t :=
  EpisodeOut.mk (ObjectId_str (_id d)) (fields d).

(** How a route that takes a path identifier answers: 400 exactly for
    an identifier [ObjectId] refuses and, for an identifier of 12 bytes,
    404 exactly when no document of the collection carries it and 200
    exactly when one does. *)
Definition answers_by_id {F A} (c : list (Document F)) (id : str)
    (r : result Exception A) : Prop :=
  (status_of r = 400%Z <-> ObjectId_new id = None) /\
  (forall oid,
      ObjectId_init id = Some oid ->
      (status_of r = 404%Z <-> stored oid c = false) /\
      (status_of r = 200%Z <-> stored oid c = true)).

(** How a route answers whose store call cannot be encoded: 400 exactly
    for an identifier [ObjectId] refuses, 500 for every other. *)
Definition answers_500_past_id {A} (id : str) (r : result Exception A) : Prop :=
  (status_of r = 400%Z <-> ObjectId_new id = None) /\
  (ObjectId_new id <> None -> status_of r = 500%Z).

(** A season that says when it starts. *)
Definition year_four : SeasonIn.t :=
  SeasonIn.mk (lit "Year Four") None (Some (mkDate 2027 1 1)) None true.

(** One season active, one not, and the episodes of [sample_db]. *)
Definition settled_world : World :=
  mkWorld (mkDatabase [mkDocument oid_a sabbatical; mkDocument oid_b year_two]
                      (episode sample_db)) [].

(** The identifier of [oid_b], spelled with upper-case digits. *)
Definition upper_b : str := lit "0B0B0B0B0B0B0B0B0B0B0B0B".

(** A body that names a season and says nothing of [is_active]. *)
Definition year_three_body : SeasonBody.t :=
  SeasonBody.mk (Value (lit "Year Three")) Missing Missing Missing Missing.

(* ################################################################# *)
(** * Part II: lemmas and theorems *)

Unset Implicit Arguments.

(* ================================================================= *)
(** ** ObjectId: the string form reads back *)

Lemma hex_pair (b : byte) :
  isspace (hexdigit (Byte.to_N b / 16)%N) = false /\
  hexval (hexdigit (Byte.to_N b / 16)%N) = Some (Byte.to_N b / 16)%N /\
  hexval (hexdigit (Byte.to_N b mod 16)%N) = Some (Byte.to_N b mod 16)%N /\
  Byte.of_N (16 * (Byte.to_N b / 16) + Byte.to_N b mod 16)%N = Some b.
Proof. destruct b; vm_compute; repeat split. Qed.

Lemma fromhex_hexlify (bs : list byte) : fromhex (hexlify bs) = Some bs.
Proof.
  induction bs as [|b bs IH]; [reflexivity|].
  destruct (hex_pair b) as (Hs & Hh & Hl & Hb).
  unfold hexlify in *; cbn [flat_map app fromhex].
  rewrite Hs, Hh, Hl, IH, Hb. reflexivity.
Qed.

Lemma length_hexlify (bs : list byte) : length (hexlify bs) = 2 * length bs.
Proof.
  induction bs as [|b bs IH]; [reflexivity|].
  unfold hexlify in *; cbn [flat_map app length]. rewrite IH. lia.
Qed.

Lemma ObjectId_ext (a b : ObjectId) : binary a = binary b -> a = b.
Proof.
  destruct a as [x Hx], b as [y Hy]; cbn; intros <-.
  f_equal. apply (UIP_dec bool_dec).
Qed.

Lemma ObjectId_new_str (o : ObjectId) : ObjectId_new (ObjectId_str o) = Some (binary o).
Proof.
  unfold ObjectId_new, ObjectId_str.
  pose proof (binary_len o) as Hlen.
  apply Nat.eqb_eq in Hlen.
  rewrite length_hexlify, Hlen, fromhex_hexlify. reflexivity.
Qed.

Lemma ObjectId_init_str (o : ObjectId) : ObjectId_init (ObjectId_str o) = Some o.
Proof.
  unfold ObjectId_init. rewrite ObjectId_new_str.
  destruct (bool_dec _ _) as [H|H].
  - f_equal. apply ObjectId_ext. reflexivity.
  - exfalso. apply H, binary_len.
Qed.

(** An identifier of 12 bytes is the bytes [ObjectId] built. *)
Lemma ObjectId_init_new (s : str) (oid : ObjectId) :
  ObjectId_init s = Some oid -> ObjectId_new s = Some (binary oid).
Proof.
  unfold ObjectId_init. destruct (ObjectId_new s) as [bs|]; [|discriminate].
  destruct (bool_dec _ _); [|discriminate].
  intros H. injection H as <-. reflexivity.
Qed.

Lemma ObjectId_init_refused (s : str) :
  ObjectId_new s = None -> ObjectId_init s = None.
Proof. unfold ObjectId_init. intros ->. reflexivity. Qed.

Lemma byte_list_eqb_eq (a b : list byte) : byte_list_eqb a b = true <-> a = b.
Proof.
  unfold byte_list_eqb. destruct (list_eq_dec _ _ _); split; congruence.
Qed.

(** The bytes that match a stored identifier are an identifier of 12
    bytes: that one. *)
Lemma matched_is_proper (F : Type) (s : str) (bs : list byte) (d : Document F) :
  ObjectId_new s = Some bs -> by_binary bs d = true -> ObjectId_init s = Some (_id d).
Proof.
  unfold by_binary, ObjectId_init. intros -> H.
  apply byte_list_eqb_eq in H. subst bs.
  destruct (bool_dec _ _) as [H|H].
  - f_equal. apply ObjectId_ext. reflexivity.
  - exfalso. apply H, binary_len.
Qed.

Lemma by_binary_id (F : Type) (oid : ObjectId) :
  by_binary (F:=F) (binary oid) = by_id oid.
Proof. reflexivity. Qed.

Lemma oid_eqb_eq (a b : ObjectId) : oid_eqb a b = true <-> a = b.
Proof.
  unfold oid_eqb, byte_list_eqb.
  destruct (list_eq_dec _ _ _) as [H|H]; split; intro E; try discriminate.
  - apply ObjectId_ext, H.
  - reflexivity.
  - subst; contradiction.
Qed.

Lemma oid_eqb_refl (a : ObjectId) : oid_eqb a a = true.
Proof. apply oid_eqb_eq. reflexivity. Qed.

Lemma oid_eqb_neq (a b : ObjectId) : oid_eqb a b = false <-> a <> b.
Proof.
  rewrite <- oid_eqb_eq. destruct (oid_eqb a b); split; congruence.
Qed.

Lemma str_eqb_eq (a b : str) : str_eqb a b = true <-> a = b.
Proof.
  unfold str_eqb. destruct (list_eq_dec _ _ _); split; congruence.
Qed.

Lemma option_str_eqb_eq (a b : option str) : option_str_eqb a b = true <-> a = b.
Proof.
  destruct a, b; cbn; try (split; congruence).
  rewrite str_eqb_eq. split; congruence.
Qed.


(* ================================================================= *)
(** ** The collection methods *)

Section CollectionFacts.
Variable F : Type.
Implicit Types (q : Document F -> bool) (upd : F -> F) (c : list (Document F)).

Lemma first_match q c :
  existsb q c = true ->
  exists before d after,
    c = before ++ d :: after /\ existsb q before = false /\ q d = true.
Proof.
  induction c as [|x c IH]; cbn; [discriminate|].
  destruct (q x) eqn:Hx; intros H.
  - exists [], x, c. auto.
  - destruct (IH H) as (before & d & after & -> & Hb & Hd).
    exists (x :: before), d, after. cbn. rewrite Hx. auto.
Qed.

Lemma find_one_and_update_miss q upd c :
  existsb q c = false -> coll_find_one_and_update q upd c = (c, None).
Proof.
  induction c as [|x c IH]; cbn; [reflexivity|].
  destruct (q x); cbn; [discriminate|].
  intros H. rewrite (IH H). reflexivity.
Qed.

Lemma find_one_and_update_at q upd before d after :
  existsb q before = false -> q d = true ->
  coll_find_one_and_update q upd (before ++ d :: after)
  = (before ++ set_fields upd d :: after, Some (set_fields upd d)).
Proof.
  induction before as [|x before IH]; cbn; intros Hb Hd.
  - rewrite Hd. reflexivity.
  - destruct (q x); cbn in *; [discriminate|].
    rewrite (IH Hb Hd). reflexivity.
Qed.

Lemma delete_one_miss q c :
  existsb q c = false -> coll_delete_one q c = (c, 0).
Proof.
  induction c as [|x c IH]; cbn; [reflexivity|].
  destruct (q x); cbn; [discriminate|].
  intros H. rewrite (IH H). reflexivity.
Qed.

Lemma delete_one_at q before d after :
  existsb q before = false -> q d = true ->
  coll_delete_one q (before ++ d :: after) = (before ++ after, 1).
Proof.
  induction before as [|x before IH]; cbn; intros Hb Hd.
  - rewrite Hd. reflexivity.
  - destruct (q x); cbn in *; [discriminate|].
    rewrite (IH Hb Hd). reflexivity.
Qed.

Lemma find_one_appended q c d :
  existsb q c = false -> q d = true -> coll_find_one q (c ++ [d]) = Some d.
Proof.
  unfold coll_find_one.
  induction c as [|x c IH]; cbn; intros Hc Hd.
  - rewrite Hd. reflexivity.
  - destruct (q x); cbn in *; [discriminate|]. auto.
Qed.

Lemma insert_one_stored oid (data : F) c :
  coll_insert_one (mkDocument oid data) c
  = if stored oid c then None else Some (c ++ [mkDocument oid data]).
Proof. reflexivity. Qed.

Lemma stored_update_many oid q upd c :
  stored oid (coll_update_many q upd c) = stored oid c.
Proof.
  unfold stored, coll_update_many.
  induction c as [|x c IH]; cbn; [reflexivity|].
  rewrite IH. destruct (q x); reflexivity.
Qed.

Lemma stored_false_In oid c :
  stored oid c = false -> forall d, In d c -> _id d <> oid.
Proof.
  unfold stored. intros H d Hd E.
  assert (existsb (by_id oid) c = true) as H'.
  { apply existsb_exists. exists d. split; [assumption|].
    unfold by_id. rewrite E. apply oid_eqb_refl. }
  congruence.
Qed.

Lemma update_many_ids q upd c :
  map (@_id F) (coll_update_many q upd c) = map (@_id F) c.
Proof.
  unfold coll_update_many. induction c as [|x c IH]; cbn; [reflexivity|].
  rewrite IH. destruct (q x); reflexivity.
Qed.

Lemma find_one_and_update_ids q upd c :
  map (@_id F) (fst (coll_find_one_and_update q upd c)) = map (@_id F) c.
Proof.
  induction c as [|x c IH]; cbn; [reflexivity|].
  destruct (q x); [reflexivity|].
  destruct (coll_find_one_and_update q upd c) as [c' r]; cbn in *.
  rewrite IH. reflexivity.
Qed.

(** What [delete_one] does: nothing, or it takes out the first match. *)
Lemma delete_one_cases q c :
  (existsb q c = false /\ coll_delete_one q c = (c, 0)) \/
  (exists before d after,
      c = before ++ d :: after /\ existsb q before = false /\ q d = true /\
      coll_delete_one q c = (before ++ after, 1)).
Proof.
  destruct (existsb q c) eqn:E.
  - right. destruct (first_match q c E) as (before & d & after & Hc & Hb & Hd).
    exists before, d, after. repeat split; try assumption.
    rewrite Hc. apply delete_one_at; assumption.
  - left. split; [reflexivity|]. apply delete_one_miss, E.
Qed.

(** What [find_one_and_update] does: nothing, or it rewrites the first
    match. *)
Lemma find_one_and_update_cases q upd c :
  (existsb q c = false /\ coll_find_one_and_update q upd c = (c, None)) \/
  (exists before d after,
      c = before ++ d :: after /\ existsb q before = false /\ q d = true /\
      coll_find_one_and_update q upd c
      = (before ++ set_fields upd d :: after, Some (set_fields upd d))).
Proof.
  destruct (existsb q c) eqn:E.
  - right. destruct (first_match q c E) as (before & d & after & Hc & Hb & Hd).
    exists before, d, after. repeat split; try assumption.
    rewrite Hc. apply find_one_and_update_at; assumption.
  - left. split; [reflexivity|]. apply find_one_and_update_miss, E.
Qed.

Lemma stored_iff_In oid c :
  stored oid c = true <-> In oid (map (@_id F) c).
Proof.
  unfold stored. rewrite existsb_exists, in_map_iff. split.
  - intros (d & Hd & Hq). exists d. split; [apply oid_eqb_eq, Hq|exact Hd].
  - intros (d & E & Hd). exists d. split; [exact Hd|].
    unfold by_id. rewrite E. apply oid_eqb_refl.
Qed.

Lemma stored_of_In (d : Document F) c : In d c -> stored (_id d) c = true.
Proof. intros H. apply stored_iff_In, in_map, H. Qed.

Lemma stored_at oid (before after : list (Document F)) d :
  _id d = oid -> stored oid (before ++ d :: after) = true.
Proof.
  intros E. apply stored_iff_In. rewrite map_app. cbn.
  apply in_or_app. right. left. exact E.
Qed.

Lemma unique_after_insert c (d : Document F) :
  NoDup (map (@_id F) c) -> stored (_id d) c = false ->
  NoDup (map (@_id F) (c ++ [d])).
Proof.
  intros Hnd Hs. rewrite map_app. cbn.
  apply NoDup_app; [exact Hnd|repeat constructor; intros []|].
  intros x Hx [<-|[]].
  apply stored_iff_In in Hx. congruence.
Qed.

Lemma unique_after_removal (before after : list (Document F)) d :
  NoDup (map (@_id F) (before ++ d :: after)) ->
  NoDup (map (@_id F) (before ++ after)) /\
  stored (_id d) (before ++ after) = false.
Proof.
  rewrite !map_app. cbn [map]. intros Hnd. split.
  - exact (NoDup_remove_1 _ _ _ Hnd).
  - destruct (stored (_id d) (before ++ after)) eqn:E; [|reflexivity].
    apply stored_iff_In in E. rewrite map_app in E.
    exfalso. exact (NoDup_remove_2 _ _ _ Hnd E).
Qed.

Lemma find_one_and_update_frame q upd c :
  Forall2 (fun d d' => _id d' = _id d /\ (q d = false -> d' = d))
          c (fst (coll_find_one_and_update q upd c)).
Proof.
  induction c as [|x c IH]; cbn; [constructor|].
  destruct (q x) eqn:Hx; cbn.
  - constructor.
    + split; [reflexivity|congruence].
    + clear IH. induction c; constructor; auto.
  - destruct (coll_find_one_and_update q upd c) as [c' r]; cbn in *.
    constructor; auto.
Qed.
End CollectionFacts.

Lemma database_eta (d : Database) : mkDatabase (season d) (episode d) = d.
Proof. destruct d; reflexivity. Qed.


(* ================================================================= *)
(** ** Active seasons *)

Lemma update_many_all (F : Type) (upd : F -> F) (c : list (Document F)) :
  coll_update_many all_docs upd c = map (set_fields upd) c.
Proof. reflexivity. Qed.

Lemma active_deactivated (c : list (Document SeasonIn.t)) :
  active (map deactivate c) = [].
Proof. induction c as [|x c IH]; cbn; auto. Qed.

Lemma active_app (a b : list (Document SeasonIn.t)) :
  active (a ++ b) = active a ++ active b.
Proof. apply filter_app. Qed.

Lemma active_replaced (before after : list (Document SeasonIn.t)) d d' :
  active (before ++ d :: after) = [] ->
  SeasonIn.is_active (fields d') = true ->
  active (before ++ d' :: after) = [d'].
Proof.
  intros H Hd'.
  rewrite active_app in H. apply app_eq_nil in H as [Hb H].
  change (d :: after) with ([d] ++ after) in H.
  rewrite active_app in H. apply app_eq_nil in H as [_ Ha].
  rewrite active_app, Hb. cbn. rewrite Hd'. fold (active after). rewrite Ha.
  reflexivity.
Qed.

Lemma active_one_le (d : Document SeasonIn.t) : length (active [d]) <= 1.
Proof. cbn. destruct (SeasonIn.is_active (fields d)); cbn; lia. Qed.

Lemma active_split (before after : list (Document SeasonIn.t)) d :
  length (active (before ++ d :: after))
  = length (active before) + length (active [d]) + length (active after).
Proof.
  change (d :: after) with ([d] ++ after).
  rewrite !active_app, !length_app. lia.
Qed.

(* ================================================================= *)
(** ** What each season handler does *)

Lemma guard_run (payload : SeasonIn.t) (w : World) :
  (if SeasonIn.is_active payload
   then update_many db_season all_docs (SeasonIn.set_is_active false)
   else ret tt) w = (after_guard payload w, Return tt).
Proof. unfold after_guard. destruct (SeasonIn.is_active payload); reflexivity. Qed.

Lemma stored_after_guard oid payload w :
  stored oid (season (db (after_guard payload w))) = stored oid (season (db w)).
Proof.
  unfold after_guard. destruct (SeasonIn.is_active payload); [|reflexivity].
  cbn. rewrite <- update_many_all. apply stored_update_many.
Qed.

Lemma episode_after_guard payload w :
  episode (db (after_guard payload w)) = episode (db w).
Proof. unfold after_guard. destruct (SeasonIn.is_active payload); reflexivity. Qed.

Lemma after_guard_active payload w :
  SeasonIn.is_active payload = true ->
  season (db (after_guard payload w)) = map deactivate (season (db w)).
Proof. unfold after_guard. intros ->. reflexivity. Qed.

Lemma after_guard_inactive payload w :
  SeasonIn.is_active payload = false -> after_guard payload w = w.
Proof. unfold after_guard. intros ->. reflexivity. Qed.

Lemma active_after_guard payload w :
  SeasonIn.is_active payload = true ->
  active (season (db (after_guard payload w))) = [].
Proof.
  intros H. rewrite (after_guard_active _ w H). apply active_deactivated.
Qed.

Lemma ids_after_guard payload w :
  map (@_id SeasonIn.t) (season (db (after_guard payload w)))
  = map (@_id SeasonIn.t) (season (db w)).
Proof.
  unfold after_guard. destruct (SeasonIn.is_active payload); [|reflexivity].
  cbn. rewrite map_map. reflexivity.
Qed.

Lemma by_id_true (F : Type) oid (d : Document F) : by_id oid d = true -> _id d = oid.
Proof. apply oid_eqb_eq. Qed.

(** A season with no date can be encoded, one with a date cannot. *)
Lemma SeasonIn_encodes_undated (payload : SeasonIn.t) :
  SeasonIn_encodes payload = true <->
  SeasonIn.start_date payload = None /\ SeasonIn.end_date payload = None.
Proof.
  unfold SeasonIn_encodes, optional_date_encodes, date_encodes.
  destruct (SeasonIn.start_date payload), (SeasonIn.end_date payload); cbn;
    split; try discriminate; try (intros [? ?]; discriminate); auto.
Qed.

Lemma create_season_run new_oid payload w :
  create_season new_oid payload w =
  let g := after_guard payload w in
  if stored new_oid (season (db w))
  then (mkWorld (db g) (trace g ++ [CallInsertOne "season" false]),
        Raise (Unhandled "DuplicateKeyError"))
  else (mkWorld (mkDatabase (season (db g) ++ [mkDocument new_oid payload]) (episode (db g)))
                ((trace g ++ [CallInsertOne "season" true]) ++ [CallFindOne "season" true]),
        Return (SeasonOut.mk (ObjectId_str new_oid) payload)).
Proof.
  unfold create_season, bind. rewrite guard_run. cbv zeta.
  rewrite <- (stored_after_guard new_oid payload w).
  unfold create_document. cbn [get db_season db trace cname put].
  rewrite insert_one_stored.
  destruct (stored new_oid (season (db (after_guard payload w)))) eqn:Hs; [reflexivity|].
  rewrite ObjectId_new_str. unfold find_one. cbn [get db_season db trace cname season].
  rewrite by_binary_id.
  rewrite find_one_appended; [reflexivity|exact Hs|apply oid_eqb_refl].
Qed.

Lemma update_season_refused season_id payload w :
  ObjectId_new season_id = None ->
  update_season season_id payload w
  = (w, Raise (HTTPException 400 (lit "Invalid season id"))).
Proof. unfold update_season. intros ->. reflexivity. Qed.

Lemma update_season_run season_id bs payload w :
  ObjectId_new season_id = Some bs ->
  update_season season_id payload w =
  let g := after_guard payload w in
  if SeasonIn_encodes payload then
    let (c, res) :=
      coll_find_one_and_update (by_binary bs) (fun _ => payload) (season (db g)) in
    (mkWorld (mkDatabase c (episode (db g)))
             (trace g ++ [CallFindOneAndUpdate "season" (is_some res)]),
     match res with
     | None => Raise (HTTPException 404 (lit "Season not found"))
     | Some doc => Return (SeasonOut_init (to_str_id doc))
     end)
  else (g, Raise (Unhandled "InvalidDocument")).
Proof.
  unfold update_season, bind. intros ->. rewrite guard_run. cbv zeta.
  unfold find_one_and_update. cbn [get db_season db trace cname put encodes].
  destruct (SeasonIn_encodes payload); [|reflexivity].
  destruct (coll_find_one_and_update _ _ _) as [c [d|]]; reflexivity.
Qed.

Lemma delete_season_refused season_id w :
  ObjectId_new season_id = None ->
  delete_season season_id w
  = (w, Raise (HTTPException 400 (lit "Invalid season id"))).
Proof. unfold delete_season. intros ->. reflexivity. Qed.

Lemma delete_season_run season_id bs w :
  ObjectId_new season_id = Some bs ->
  delete_season season_id w =
  let (c, n) := coll_delete_one (by_binary bs) (season (db w)) in
  if (n =? 0)%nat
  then (mkWorld (mkDatabase c (episode (db w))) (trace w ++ [CallDeleteOne "season" n]),
        Raise (HTTPException 404 (lit "Season not found")))
  else (mkWorld (mkDatabase c
                   (coll_update_many (by_season_id (Some season_id))
                      (EpisodeIn.set_season_id None) (episode (db w))))
                ((trace w ++ [CallDeleteOne "season" n]) ++ [CallUpdateMany "episode"]),
        Return status_ok).
Proof.
  unfold delete_season, bind. intros ->.
  unfold delete_one. cbn [get db_season db trace cname put].
  destruct (coll_delete_one _ _) as [c n].
  destruct (n =? 0)%nat; reflexivity.
Qed.

(* ================================================================= *)
(** ** What each episode handler does *)

Lemma update_episode_refused episode_id payload w :
  ObjectId_new episode_id = None ->
  update_episode episode_id payload w
  = (w, Raise (HTTPException 400 (lit "Invalid episode id"))).
Proof. unfold update_episode. intros ->. reflexivity. Qed.

(** The payload of an episode holds its [date]: the call cannot be
    encoded, whatever the identifier. *)
Lemma update_episode_run episode_id bs payload w :
  ObjectId_new episode_id = Some bs ->
  update_episode episode_id payload w = (w, Raise (Unhandled "InvalidDocument")).
Proof. unfold update_episode, bind. intros ->. reflexivity. Qed.

Lemma delete_episode_refused episode_id w :
  ObjectId_new episode_id = None ->
  delete_episode episode_id w
  = (w, Raise (HTTPException 400 (lit "Invalid episode id"))).
Proof. unfold delete_episode. intros ->. reflexivity. Qed.

Lemma delete_episode_run episode_id bs w :
  ObjectId_new episode_id = Some bs ->
  delete_episode episode_id w =
  let (c, n) := coll_delete_one (by_binary bs) (episode (db w)) in
  (mkWorld (mkDatabase (season (db w)) c) (trace w ++ [CallDeleteOne "episode" n]),
   if (n =? 0)%nat
   then Raise (HTTPException 404 (lit "Episode not found"))
   else Return status_ok).
Proof.
  unfold delete_episode, bind. intros ->.
  unfold delete_one. cbn [get db_episode db trace cname put].
  destruct (coll_delete_one _ _) as [c n].
  destruct (n =? 0)%nat; reflexivity.
Qed.

Lemma create_episode_run new_oid payload w :
  create_episode new_oid payload w =
  if stored new_oid (episode (db w))
  then (mkWorld (db w) (trace w ++ [CallInsertOne "episode" false]),
        Raise (Unhandled "DuplicateKeyError"))
  else (mkWorld (mkDatabase (season (db w)) (episode (db w) ++ [mkDocument new_oid payload]))
                ((trace w ++ [CallInsertOne "episode" true]) ++ [CallFindOne "episode" true]),
        Return (EpisodeOut.mk (ObjectId_str new_oid) payload)).
Proof.
  unfold create_episode, bind. cbv zeta.
  unfold create_document. cbn [get db_episode db trace cname put].
  rewrite insert_one_stored.
  destruct (stored new_oid (episode (db w))) eqn:Hs; [reflexivity|].
  rewrite ObjectId_new_str. unfold find_one. cbn [get db_episode db trace cname episode].
  rewrite by_binary_id.
  rewrite find_one_appended; [reflexivity|exact Hs|apply oid_eqb_refl].
Qed.

Lemma list_episodes_run season_id unsorted w :
  list_episodes season_id unsorted w =
  (mkWorld (db w) (trace w ++ [CallFind "episode"]),
   Return (map (fun i => EpisodeOut_init (to_str_id i))
             (filter (season_id_query
                        (if unsorted then Some None
                         else match season_id with
                              | Some s => Some (Some s)
                              | None => None
                              end))
                     (episode (db w))))).
Proof. reflexivity. Qed.

(* ================================================================= *)
(** ** The outcomes of an update and of a delete *)

(** What the bytes of the path identifier are when they match nothing, or
    match a document. *)
Lemma unmatched_not_stored (F : Type) (id : str) (bs : list byte) (c : list (Document F)) :
  ObjectId_new id = Some bs -> existsb (by_binary bs) c = false ->
  forall oid, ObjectId_init id = Some oid -> stored oid c = false.
Proof.
  intros Hnew Hmiss oid Hid. apply ObjectId_init_new in Hid.
  rewrite Hnew in Hid. injection Hid as ->. exact Hmiss.
Qed.

Lemma matched_first (F : Type) (id : str) (bs : list byte)
    (before after : list (Document F)) (d : Document F) :
  ObjectId_new id = Some bs ->
  existsb (by_binary bs) before = false -> by_binary bs d = true ->
  ObjectId_init id = Some (_id d) /\ bs = binary (_id d) /\
  stored (_id d) before = false /\ stored (_id d) (before ++ d :: after) = true.
Proof.
  intros Hnew Hb Hd.
  pose proof (matched_is_proper F id bs d Hnew Hd) as Hid.
  pose proof (ObjectId_init_new _ _ Hid) as Hnew'.
  rewrite Hnew in Hnew'. injection Hnew' as ->.
  repeat split; [exact Hid|exact Hb|apply stored_at; reflexivity].
Qed.

Lemma update_season_cases season_id payload w :
  let g := after_guard payload w in
  (ObjectId_new season_id = None /\
   update_season season_id payload w
   = (w, Raise (HTTPException 400 (lit "Invalid season id"))))
  \/ (ObjectId_new season_id <> None /\ SeasonIn_encodes payload = false /\
      update_season season_id payload w = (g, Raise (Unhandled "InvalidDocument")))
  \/ (ObjectId_new season_id <> None /\ SeasonIn_encodes payload = true /\
      (forall oid, ObjectId_init season_id = Some oid ->
                   stored oid (season (db w)) = false) /\
      (forall d, In d (season (db w)) -> ObjectId_init season_id <> Some (_id d)) /\
      update_season season_id payload w
      = (mkWorld (db g) (trace g ++ [CallFindOneAndUpdate "season" false]),
         Raise (HTTPException 404 (lit "Season not found"))))
  \/ (exists oid before d after,
      ObjectId_init season_id = Some oid /\ SeasonIn_encodes payload = true /\
      stored oid (season (db w)) = true /\
      season (db g) = before ++ d :: after /\
      stored oid before = false /\ _id d = oid /\
      update_season season_id payload w
      = (mkWorld (mkDatabase (before ++ mkDocument oid payload :: after) (episode (db w)))
                 (trace g ++ [CallFindOneAndUpdate "season" true]),
         Return (SeasonOut.mk (ObjectId_str oid) payload))).
Proof.
  cbv zeta. destruct (ObjectId_new season_id) as [bs|] eqn:Hnew.
  2:{ left. split; [reflexivity|]. apply update_season_refused, Hnew. }
  right. rewrite (update_season_run _ _ payload w Hnew). cbv zeta.
  destruct (SeasonIn_encodes payload) eqn:Henc.
  2:{ left. repeat split. discriminate. }
  right.
  destruct (find_one_and_update_cases _ (by_binary bs) (fun _ => payload)
              (season (db (after_guard payload w))))
    as [[Hs ->]|(before & d & after & Hc & Hb & Hd & ->)].
  - left. split; [discriminate|]. split; [reflexivity|].
    assert (forall oid, ObjectId_init season_id = Some oid ->
                        stored oid (season (db w)) = false) as Hnone.
    { intros oid Hid. rewrite <- (stored_after_guard oid payload w).
      exact (unmatched_not_stored _ _ _ _ Hnew Hs oid Hid). }
    split; [exact Hnone|]. split.
    + intros d Hd Hid. specialize (Hnone _ Hid).
      rewrite (stored_of_In _ d _ Hd) in Hnone. discriminate.
    + rewrite episode_after_guard, <- (episode_after_guard payload w), database_eta.
      reflexivity.
  - right.
    destruct (matched_first _ _ _ before after d Hnew Hb Hd) as (Hid & -> & Hb' & Hst).
    exists (_id d), before, d, after.
    split; [exact Hid|]. split; [reflexivity|].
    split; [rewrite <- (stored_after_guard (_id d) payload w), Hc; exact Hst|].
    split; [exact Hc|]. split; [exact Hb'|]. split; [reflexivity|].
    rewrite episode_after_guard. reflexivity.
Qed.

Lemma update_episode_cases episode_id payload w :
  (ObjectId_new episode_id = None /\
   update_episode episode_id payload w
   = (w, Raise (HTTPException 400 (lit "Invalid episode id"))))
  \/ (ObjectId_new episode_id <> None /\
      update_episode episode_id payload w = (w, Raise (Unhandled "InvalidDocument"))).
Proof.
  destruct (ObjectId_new episode_id) as [bs|] eqn:Hnew.
  - right. split; [discriminate|]. apply (update_episode_run _ bs), Hnew.
  - left. split; [reflexivity|]. apply update_episode_refused, Hnew.
Qed.

Lemma delete_season_cases season_id w :
  (ObjectId_new season_id = None /\
   delete_season season_id w
   = (w, Raise (HTTPException 400 (lit "Invalid season id"))))
  \/ (ObjectId_new season_id <> None /\
      (forall oid, ObjectId_init season_id = Some oid ->
                   stored oid (season (db w)) = false) /\
      delete_season season_id w
      = (mkWorld (db w) (trace w ++ [CallDeleteOne "season" 0]),
         Raise (HTTPException 404 (lit "Season not found"))))
  \/ (exists oid before d after,
      ObjectId_init season_id = Some oid /\
      stored oid (season (db w)) = true /\
      season (db w) = before ++ d :: after /\
      stored oid before = false /\ _id d = oid /\
      delete_season season_id w
      = (mkWorld (mkDatabase (before ++ after)
                    (coll_update_many (by_season_id (Some season_id))
                       (EpisodeIn.set_season_id None) (episode (db w))))
                 ((trace w ++ [CallDeleteOne "season" 1]) ++ [CallUpdateMany "episode"]),
         Return status_ok)).
Proof.
  destruct (ObjectId_new season_id) as [bs|] eqn:Hnew.
  2:{ left. split; [reflexivity|]. apply delete_season_refused, Hnew. }
  right. rewrite (delete_season_run _ _ w Hnew).
  destruct (delete_one_cases _ (by_binary bs) (season (db w)))
    as [[Hs ->]|(before & d & after & Hc & Hb & Hd & ->)]; cbn [Nat.eqb].
  - left. split; [discriminate|].
    split; [exact (unmatched_not_stored _ _ _ _ Hnew Hs)|].
    rewrite database_eta. reflexivity.
  - right.
    destruct (matched_first _ _ _ before after d Hnew Hb Hd) as (Hid & -> & Hb' & Hst).
    exists (_id d), before, d, after. rewrite Hc. auto 10.
Qed.

Lemma delete_episode_cases episode_id w :
  (ObjectId_new episode_id = None /\
   delete_episode episode_id w
   = (w, Raise (HTTPException 400 (lit "Invalid episode id"))))
  \/ (ObjectId_new episode_id <> None /\
      (forall oid, ObjectId_init episode_id = Some oid ->
                   stored oid (episode (db w)) = false) /\
      delete_episode episode_id w
      = (mkWorld (db w) (trace w ++ [CallDeleteOne "episode" 0]),
         Raise (HTTPException 404 (lit "Episode not found"))))
  \/ (exists oid before d after,
      ObjectId_init episode_id = Some oid /\
      stored oid (episode (db w)) = true /\
      episode (db w) = before ++ d :: after /\
      stored oid before = false /\ _id d = oid /\
      delete_episode episode_id w
      = (mkWorld (mkDatabase (season (db w)) (before ++ after))
                 (trace w ++ [CallDeleteOne "episode" 1]),
         Return status_ok)).
Proof.
  destruct (ObjectId_new episode_id) as [bs|] eqn:Hnew.
  2:{ left. split; [reflexivity|]. apply delete_episode_refused, Hnew. }
  right. rewrite (delete_episode_run _ _ w Hnew).
  destruct (delete_one_cases _ (by_binary bs) (episode (db w)))
    as [[Hs ->]|(before & d & after & Hc & Hb & Hd & ->)]; cbn [Nat.eqb].
  - left. split; [discriminate|].
    split; [exact (unmatched_not_stored _ _ _ _ Hnew Hs)|].
    rewrite database_eta. reflexivity.
  - right.
    destruct (matched_first _ _ _ before after d Hnew Hb Hd) as (Hid & -> & Hb' & Hst).
    exists (_id d), before, d, after. rewrite Hc. auto 10.
Qed.

(* ================================================================= *)
(** ** C1: one active season after an activating create or update *)

(** C1. For a season create or update whose input has [is_active = true]:
    when the operation succeeds, the season collection holds exactly one
    active season, the created or updated one, however many were active
    before.  The create succeeds whenever the generated identifier is new
    to the collection, the update whenever the identifier is well formed
    and stored and the input sets neither date. *)
Theorem active_season_unique (payload : SeasonIn.t) (w : World) :
  SeasonIn.is_active payload = true ->
  (forall new_oid w' out,
      create_season new_oid payload w = (w', Return out) ->
      active (season (db w')) = [mkDocument new_oid payload] /\
      out = SeasonOut.mk (ObjectId_str new_oid) payload)
  /\ (forall new_oid,
      stored new_oid (season (db w)) = false ->
      exists w' out, create_season new_oid payload w = (w', Return out))
  /\ (forall season_id w' out,
      update_season season_id payload w = (w', Return out) ->
      exists oid,
        ObjectId_init season_id = Some oid /\
        active (season (db w')) = [mkDocument oid payload] /\
        out = SeasonOut.mk (ObjectId_str oid) payload)
  /\ (forall season_id oid,
      ObjectId_init season_id = Some oid ->
      stored oid (season (db w)) = true ->
      SeasonIn.start_date payload = None ->
      SeasonIn.end_date payload = None ->
      exists w' out, update_season season_id payload w = (w', Return out)).
Proof.
  intros Hact. split; [|split; [|split]].
  - intros new_oid w' out H. rewrite create_season_run in H. cbv zeta in H.
    destruct (stored new_oid (season (db w))); [discriminate|].
    injection H as <- <-. cbn [db season]. split; [|reflexivity].
    rewrite (after_guard_active _ _ Hact), active_app, active_deactivated.
    cbn. rewrite Hact. reflexivity.
  - intros new_oid Hnew. rewrite create_season_run. cbv zeta. rewrite Hnew.
    eauto.
  - intros season_id w' out H.
    destruct (update_season_cases season_id payload w)
      as [[_ E]|[(_ & _ & E)|[(_ & _ & _ & _ & E)
         |(oid & b & d & a & Hid & _ & _ & Hc & _ & _ & E)]]];
      rewrite E in H; try discriminate.
    injection H as <- <-. exists oid. split; [exact Hid|]. split; [|reflexivity].
    cbn [db season].
    apply active_replaced with (d := d); [|exact Hact].
    rewrite <- Hc. apply active_after_guard, Hact.
  - intros season_id oid Hid Hs Hstart Hend.
    assert (SeasonIn_encodes payload = true) as Henc
      by (apply SeasonIn_encodes_undated; auto).
    destruct (update_season_cases season_id payload w)
      as [[Hnew _]|[(_ & Hno & _)|[(_ & _ & Hnone & _)
         |(o & b & d & a & _ & _ & _ & _ & _ & _ & E)]]].
    + rewrite (ObjectId_init_refused _ Hnew) in Hid. discriminate.
    + congruence.
    + rewrite (Hnone oid Hid) in Hs. discriminate.
    + rewrite E. eauto.
Qed.

Lemma active_season_unique_witness :
  SeasonIn.is_active year_one = true /\
  active (season (db (fst (create_season oid_c year_one sample_world))))
  = [mkDocument oid_c year_one] /\
  active (season (db (fst (update_season (ObjectId_str oid_a) year_one sample_world))))
  = [mkDocument oid_a year_one].
Proof.
  destruct (active_season_unique year_one sample_world eq_refl)
    as (Hcreate & _ & Hupdate & _).
  split; [reflexivity|]. split.
  - apply (Hcreate oid_c _ (SeasonOut.mk (ObjectId_str oid_c) year_one)).
    vm_compute. reflexivity.
  - destruct (Hupdate (ObjectId_str oid_a)
                (fst (update_season (ObjectId_str oid_a) year_one sample_world))
                (SeasonOut.mk (ObjectId_str oid_a) year_one))
      as (oid & Hid & Hone & _).
    + vm_compute. reflexivity.
    + rewrite ObjectId_init_str in Hid. injection Hid as <-. exact Hone.
Defined.

(* ================================================================= *)
(** ** C6: a write with [is_active = false] leaves the other seasons *)

Lemma Forall2_diag (A : Type) (R : A -> A -> Prop) (l : list A) :
  (forall x, R x x) -> Forall2 R l l.
Proof. intros H. induction l; constructor; auto. Qed.

(** C6. A season create or update whose input has [is_active = false]
    changes no other season: a create leaves every stored season as it was
    and at most appends the new one; an update leaves every season whose
    identifier is not the one addressed as it was, so each keeps its
    [is_active]. *)
Theorem inactive_write_keeps_other_seasons (payload : SeasonIn.t) (w : World) :
  SeasonIn.is_active payload = false ->
  (forall new_oid w' r,
      create_season new_oid payload w = (w', r) ->
      season (db w') = season (db w) \/
      season (db w') = season (db w) ++ [mkDocument new_oid payload])
  /\ (forall season_id w' r,
      update_season season_id payload w = (w', r) ->
      Forall2 (fun d d' =>
                 _id d' = _id d /\
                 (ObjectId_init season_id <> Some (_id d) ->
                  d' = d /\
                  SeasonIn.is_active (fields d') = SeasonIn.is_active (fields d)))
              (season (db w)) (season (db w'))).
Proof.
  intros Hin. split.
  - intros new_oid w' r H.
    rewrite create_season_run in H. cbv zeta in H.
    rewrite (after_guard_inactive _ _ Hin) in H.
    destruct (stored new_oid (season (db w))); injection H as <- _; cbn; auto.
  - intros season_id w' r H.
    destruct (update_season_cases season_id payload w)
      as [[_ E]|[(_ & _ & E)|[(_ & _ & _ & _ & E)
         |(oid & b & d & a & Hid & _ & _ & Hc & _ & Hd & E)]]];
      rewrite E in H; injection H as <- _;
      rewrite ?(after_guard_inactive _ _ Hin) in *; cbn [db season];
      try (apply Forall2_diag; auto).
    rewrite Hc. apply Forall2_app; [apply Forall2_diag; auto|].
    constructor; [|apply Forall2_diag; auto].
    cbn [_id]. split; [symmetry; exact Hd|].
    intros Hne. rewrite Hid, Hd in Hne. contradiction.
Qed.

Lemma inactive_write_keeps_other_seasons_witness :
  SeasonIn.is_active sabbatical = false /\
  Forall2 (fun d d' =>
             _id d' = _id d /\
             (ObjectId_init (ObjectId_str oid_b) <> Some (_id d) ->
              d' = d /\
              SeasonIn.is_active (fields d') = SeasonIn.is_active (fields d)))
          (season (db sample_world))
          (season (db (fst (update_season (ObjectId_str oid_b) sabbatical sample_world)))).
Proof.
  split; [reflexivity|].
  destruct (inactive_write_keeps_other_seasons sabbatical sample_world eq_refl)
    as (_ & Hupdate).
  apply (Hupdate (ObjectId_str oid_b) _
           (snd (update_season (ObjectId_str oid_b) sabbatical sample_world))).
  vm_compute. reflexivity.
Defined.

(* ================================================================= *)
(** ** C9: the update of a season that is not there still deactivates *)

Lemma active_existsb (c : list (Document SeasonIn.t)) :
  existsb (fun d => SeasonIn.is_active (fields d)) c = true -> active c <> [].
Proof.
  intros H E. apply existsb_exists in H as (d & Hd & Ha).
  assert (In d (active c)) as Hin by (apply filter_In; auto).
  rewrite E in Hin. contradiction.
Qed.

(** C9. Season update is not atomic on its error path: with a well formed
    identifier that matches no season, an input with [is_active = true]
    and at least one active season stored, the update raises and has
    nevertheless set [is_active] to false on every stored season; the
    bulk deactivation ran before the lookup.  What it raises is the 404
    when the input sets neither date; when it sets one, the call cannot
    be encoded and the update answers 500 in place of the 404. *)
Theorem update_season_not_found_deactivates
    (w : World) (season_id : str) (oid : ObjectId) (payload : SeasonIn.t) :
  ObjectId_init season_id = Some oid ->
  stored oid (season (db w)) = false ->
  SeasonIn.is_active payload = true ->
  existsb (fun d => SeasonIn.is_active (fields d)) (season (db w)) = true ->
  exists w' e,
    update_season season_id payload w = (w', Raise e) /\
    (SeasonIn.start_date payload = None -> SeasonIn.end_date payload = None ->
     e = HTTPException 404 (lit "Season not found") /\
     trace w' = trace w ++ [CallUpdateMany "season"; CallFindOneAndUpdate "season" false]) /\
    (SeasonIn.start_date payload <> None \/ SeasonIn.end_date payload <> None ->
     e = Unhandled "InvalidDocument" /\ status_of (Raise (A:=SeasonOut.t) e) = 500%Z /\
     trace w' = trace w ++ [CallUpdateMany "season"]) /\
    season (db w') = map deactivate (season (db w)) /\
    Forall (fun d => SeasonIn.is_active (fields d) = false) (season (db w')) /\
    season (db w') <> season (db w) /\
    episode (db w') = episode (db w).
Proof.
  intros Hid Hs Hact Hsome.
  assert (forall w', db w' = db (after_guard payload w) ->
            season (db w') = map deactivate (season (db w)) /\
            Forall (fun d => SeasonIn.is_active (fields d) = false) (season (db w')) /\
            season (db w') <> season (db w) /\
            episode (db w') = episode (db w)) as Hdeact.
  { intros w' ->. rewrite (after_guard_active _ w Hact), episode_after_guard.
    repeat split.
    - apply Forall_forall. intros d Hd.
      apply in_map_iff in Hd as (x & <- & _). reflexivity.
    - intros E. apply (active_existsb _ Hsome).
      rewrite <- E. apply active_deactivated. }
  assert (trace (after_guard payload w) = trace w ++ [CallUpdateMany "season"]) as Htr
    by (unfold after_guard; rewrite Hact; reflexivity).
  destruct (update_season_cases season_id payload w)
    as [[Hnew _]|[(_ & Henc & E)|[(_ & Henc & _ & _ & E)
       |(o & b & d & a & Hid' & _ & Hs' & _)]]].
  - rewrite (ObjectId_init_refused _ Hnew) in Hid. discriminate.
  - rewrite E. eexists. eexists. split; [reflexivity|].
    split; [|split; [|apply Hdeact; reflexivity]].
    + intros Hstart Hend.
      assert (SeasonIn_encodes payload = true) by (apply SeasonIn_encodes_undated; auto).
      congruence.
    + intros _. auto.
  - rewrite E. eexists. eexists. split; [reflexivity|].
    split; [|split; [|apply Hdeact; reflexivity]].
    + intros _ _. split; [reflexivity|]. cbn [trace].
      rewrite Htr, <- app_assoc. reflexivity.
    + intros Hdated. apply SeasonIn_encodes_undated in Henc as [Hstart Hend].
      destruct Hdated; contradiction.
  - rewrite Hid in Hid'. injection Hid' as <-. congruence.
Qed.

Lemma update_season_not_found_deactivates_witness :
  exists w',
    update_season (ObjectId_str oid_c) year_four sample_world
    = (w', Raise (Unhandled "InvalidDocument")) /\
    season (db w')
    = [mkDocument oid_a (SeasonIn.set_is_active false year_one);
       mkDocument oid_b (SeasonIn.set_is_active false year_two)].
Proof.
  assert (SeasonIn.start_date year_four <> None) as Hstart by discriminate.
  destruct (update_season_not_found_deactivates sample_world (ObjectId_str oid_c)
              oid_c year_four (ObjectId_init_str oid_c) eq_refl eq_refl eq_refl)
    as (w' & e & Hrun & _ & Hdated & Hall & _).
  destruct (Hdated (or_introl Hstart)) as (He & _).
  exists w'. split; [rewrite <- He; exact Hrun|exact Hall].
Defined.

(* ================================================================= *)
(** ** C10: the deletes change nothing on their not-found path *)

(** C10. Season delete and episode delete are atomic on their not-found
    path: with a well formed identifier that matches no document, the
    delete answers 404 and both collections are as they were; the only
    store call is the [delete_one] that deleted nothing, so the orphaning
    [update_many] of season delete has not run. *)
Theorem delete_not_found_changes_nothing (w : World) (id : str) (oid : ObjectId) :
  ObjectId_init id = Some oid ->
  (stored oid (season (db w)) = false ->
   delete_season id w
   = (mkWorld (db w) (trace w ++ [CallDeleteOne "season" 0]),
      Raise (HTTPException 404 (lit "Season not found"))))
  /\ (stored oid (episode (db w)) = false ->
      delete_episode id w
      = (mkWorld (db w) (trace w ++ [CallDeleteOne "episode" 0]),
         Raise (HTTPException 404 (lit "Episode not found")))).
Proof.
  intros Hid. split; intros Hs.
  - destruct (delete_season_cases id w)
      as [[Hnew _]|[(_ & _ & E)|(o & b & d & a & Hid' & Hs' & _)]].
    + rewrite (ObjectId_init_refused _ Hnew) in Hid. discriminate.
    + exact E.
    + rewrite Hid in Hid'. injection Hid' as <-. congruence.
  - destruct (delete_episode_cases id w)
      as [[Hnew _]|[(_ & _ & E)|(o & b & d & a & Hid' & Hs' & _)]].
    + rewrite (ObjectId_init_refused _ Hnew) in Hid. discriminate.
    + exact E.
    + rewrite Hid in Hid'. injection Hid' as <-. congruence.
Qed.

Lemma delete_not_found_changes_nothing_witness :
  delete_season (ObjectId_str oid_c) sample_world
  = (mkWorld sample_db [CallDeleteOne "season" 0],
     Raise (HTTPException 404 (lit "Season not found")))
  /\ delete_episode (ObjectId_str oid_a) sample_world
     = (mkWorld sample_db [CallDeleteOne "episode" 0],
        Raise (HTTPException 404 (lit "Episode not found"))).
Proof.
  split.
  - apply (delete_not_found_changes_nothing sample_world (ObjectId_str oid_c) oid_c
             (ObjectId_init_str oid_c)).
    reflexivity.
  - apply (delete_not_found_changes_nothing sample_world (ObjectId_str oid_a) oid_a
             (ObjectId_init_str oid_a)).
    reflexivity.
Defined.

(* ================================================================= *)
(** ** C4: 400 for a refused identifier, and where the 404 is missed *)

(** C4. For season and episode update and delete: a path identifier that
    [ObjectId] refuses is answered 400 with the world, its record of
    store calls included, untouched.  A well formed identifier that
    matches no stored document is answered 404 by the two deletes, and by
    the season update when the input sets neither date, the last store
    call made being the lookup that found nothing.  The episode update
    misses its 404: its [$set] document holds the [date] of the episode,
    which cannot be encoded, so for every identifier [ObjectId] accepts it
    raises before the store is reached and answers 500; the season update
    does the same when the input sets a date. *)
Theorem malformed_400_not_stored_404 (w : World) (id : str) :
  (ObjectId_new id = None ->
   (forall payload,
       update_season id payload w
       = (w, Raise (HTTPException 400 (lit "Invalid season id")))) /\
   delete_season id w = (w, Raise (HTTPException 400 (lit "Invalid season id"))) /\
   (forall payload,
       update_episode id payload w
       = (w, Raise (HTTPException 400 (lit "Invalid episode id")))) /\
   delete_episode id w = (w, Raise (HTTPException 400 (lit "Invalid episode id"))))
  /\ (forall oid,
      ObjectId_init id = Some oid ->
      (stored oid (season (db w)) = false ->
       (forall payload,
           SeasonIn.start_date payload = None -> SeasonIn.end_date payload = None ->
           exists w' calls,
             update_season id payload w
             = (w', Raise (HTTPException 404 (lit "Season not found"))) /\
             trace w' = trace w ++ calls ++ [CallFindOneAndUpdate "season" false]) /\
       (exists w',
           delete_season id w
           = (w', Raise (HTTPException 404 (lit "Season not found"))) /\
           trace w' = trace w ++ [CallDeleteOne "season" 0]))
      /\ (stored oid (episode (db w)) = false ->
          exists w',
            delete_episode id w
            = (w', Raise (HTTPException 404 (lit "Episode not found"))) /\
            trace w' = trace w ++ [CallDeleteOne "episode" 0]))
  /\ (ObjectId_new id <> None ->
      (forall payload,
          update_episode id payload w = (w, Raise (Unhandled "InvalidDocument")) /\
          status_of (snd (update_episode id payload w)) = 500%Z) /\
      (forall payload,
          SeasonIn.start_date payload <> None \/ SeasonIn.end_date payload <> None ->
          snd (update_season id payload w) = Raise (Unhandled "InvalidDocument") /\
          status_of (snd (update_season id payload w)) = 500%Z)).
Proof.
  split; [|split].
  - intros Hid. repeat split; intros.
    + apply update_season_refused, Hid.
    + apply delete_season_refused, Hid.
    + apply update_episode_refused, Hid.
    + apply delete_episode_refused, Hid.
  - intros oid Hid. split; intros Hs; [split|].
    + intros payload Hstart Hend.
      assert (SeasonIn_encodes payload = true) as Henc
        by (apply SeasonIn_encodes_undated; auto).
      destruct (update_season_cases id payload w)
        as [[Hnew _]|[(_ & Hno & _)|[(_ & _ & _ & _ & E)
           |(o & b & d & a & Hid' & _ & Hs' & _)]]].
      * rewrite (ObjectId_init_refused _ Hnew) in Hid. discriminate.
      * congruence.
      * rewrite E. eexists.
        exists (if SeasonIn.is_active payload then [CallUpdateMany "season"] else []).
        split; [reflexivity|]. cbn [trace].
        unfold after_guard. destruct (SeasonIn.is_active payload); cbn [trace].
        -- rewrite <- app_assoc. reflexivity.
        -- reflexivity.
      * rewrite Hid in Hid'. injection Hid' as <-. congruence.
    + destruct (delete_season_cases id w)
        as [[Hnew _]|[(_ & _ & E)|(o & b & d & a & Hid' & Hs' & _)]].
      * rewrite (ObjectId_init_refused _ Hnew) in Hid. discriminate.
      * rewrite E. eauto.
      * rewrite Hid in Hid'. injection Hid' as <-. congruence.
    + destruct (delete_episode_cases id w)
        as [[Hnew _]|[(_ & _ & E)|(o & b & d & a & Hid' & Hs' & _)]].
      * rewrite (ObjectId_init_refused _ Hnew) in Hid. discriminate.
      * rewrite E. eauto.
      * rewrite Hid in Hid'. injection Hid' as <-. congruence.
  - intros Hnew. split.
    + intros payload.
      destruct (update_episode_cases id payload w) as [[Hno _]|[_ E]];
        [contradiction|]. rewrite E. auto.
    + intros payload Hdated.
      destruct (update_season_cases id payload w)
        as [[Hno _]|[(_ & _ & E)|[(_ & Henc & _)|(o & b & d & a & _ & Henc & _)]]].
      * contradiction.
      * rewrite E. auto.
      * apply SeasonIn_encodes_undated in Henc as [? ?]. destruct Hdated; contradiction.
      * apply SeasonIn_encodes_undated in Henc as [? ?]. destruct Hdated; contradiction.
Qed.

Lemma malformed_400_not_stored_404_witness :
  ObjectId_new (ObjectId_str oid_c) <> None /\
  stored oid_c (episode (db empty_world)) = false /\
  update_episode (ObjectId_str oid_c) day_2 empty_world
  = (empty_world, Raise (Unhandled "InvalidDocument")) /\
  status_of (snd (update_episode (ObjectId_str oid_c) day_2 empty_world)) = 500%Z.
Proof.
  assert (ObjectId_new (ObjectId_str oid_c) <> None) as Hnew
    by (rewrite ObjectId_new_str; discriminate).
  destruct (malformed_400_not_stored_404 empty_world (ObjectId_str oid_c))
    as (_ & _ & Hmissed).
  destruct (Hmissed Hnew) as (Hepisode & _).
  split; [exact Hnew|]. split; [reflexivity|]. apply Hepisode.
Defined.

(* ================================================================= *)
(** ** C2: deleting a season orphans its episodes *)

Lemma update_many_orphans (sid : str) (c : list (Document EpisodeIn.t)) :
  Forall2 (orphaned sid) c
          (coll_update_many (by_season_id (Some sid)) (EpisodeIn.set_season_id None) c).
Proof.
  induction c as [|e c IH]; cbn; constructor; [|exact IH].
  unfold orphaned, by_season_id.
  destruct (option_str_eqb _ _) eqn:E.
  - apply option_str_eqb_eq in E. cbn. repeat split; congruence.
  - repeat split; intros He; try reflexivity.
    apply option_str_eqb_eq in He. congruence.
Qed.

(** C2. For a season [S] that is stored, deleting by the string form of
    its identifier succeeds and removes from the season collection the
    season with that identifier, which is [S] itself and the only one when
    identifiers are unique, as they are in a store; the episode collection
    keeps every episode, in place: an episode whose [season_id] was the
    string form of the identifier has it null, with its other fields as
    before, and every other episode is unchanged. *)
Theorem delete_season_orphans_episodes (w : World) (S : Document SeasonIn.t) :
  In S (season (db w)) ->
  exists w' before S0 after,
    delete_season (ObjectId_str (_id S)) w = (w', Return status_ok) /\
    season (db w) = before ++ S0 :: after /\
    _id S0 = _id S /\
    (forall d, In d before -> _id d <> _id S) /\
    season (db w') = before ++ after /\
    (NoDup (map (@_id SeasonIn.t) (season (db w))) ->
     S0 = S /\ ~ In (_id S) (map (@_id SeasonIn.t) (season (db w')))) /\
    length (episode (db w')) = length (episode (db w)) /\
    Forall2 (orphaned (ObjectId_str (_id S))) (episode (db w)) (episode (db w')).
Proof.
  intros HS.
  pose proof (stored_of_In _ S _ HS) as Hs.
  pose proof (ObjectId_init_str (_id S)) as Hid.
  destruct (delete_season_cases (ObjectId_str (_id S)) w)
    as [[Hnew _]|[(_ & Hnone & _)|(o & before & S0 & after & Hid' & _ & Hc & Hb & Hd & E)]].
  { rewrite ObjectId_new_str in Hnew. discriminate. }
  { rewrite (Hnone _ Hid) in Hs. discriminate. }
  rewrite Hid in Hid'. injection Hid' as <-.
  rewrite E. eexists. exists before, S0, after.
  split; [reflexivity|]. cbn [db season episode].
  split; [exact Hc|]. split; [exact Hd|].
  split; [apply stored_false_In, Hb|].
  split; [reflexivity|].
  split; [|split].
  - rewrite Hc, map_app. cbn [map]. intros Hnd.
    pose proof (NoDup_remove_2 _ _ _ Hnd) as Hout.
    rewrite Hd in Hout. rewrite map_app. split; [|exact Hout].
    rewrite Hc in HS. apply in_app_or in HS as [Hin|[Heq|Hin]].
    + exfalso. exact (stored_false_In _ _ _ Hb S Hin eq_refl).
    + exact Heq.
    + exfalso. apply Hout. apply in_or_app. right.
      apply in_map_iff. exists S. auto.
  - unfold coll_update_many. apply length_map.
  - apply update_many_orphans.
Qed.

Lemma delete_season_orphans_episodes_witness :
  In (mkDocument oid_b year_two) (season (db sample_world)) /\
  delete_season (ObjectId_str oid_b) sample_world
  = (mkWorld (mkDatabase [mkDocument oid_a year_one]
                [mkDocument oid_e (EpisodeIn.set_season_id None day_1);
                 mkDocument oid_c day_2])
             [CallDeleteOne "season" 1; CallUpdateMany "episode"],
     Return status_ok).
Proof.
  assert (In (mkDocument oid_b year_two) (season (db sample_world))) as Hin.
  { right. left. reflexivity. }
  split; [exact Hin|].
  destruct (delete_season_orphans_episodes sample_world _ Hin)
    as (w' & before & S0 & after & Hrun & _).
  cbn [_id] in Hrun. rewrite Hrun. clear Hin.
  vm_compute in Hrun. injection Hrun as <-. reflexivity.
Defined.

(* ================================================================= *)
(** ** C3: what [list_episodes] returns *)

(** C3. [list_episodes] with [unsorted] true returns exactly the episodes
    whose [season_id] is null, whatever [season_id] parameter comes with
    it; with [unsorted] false and a [season_id] it returns exactly the
    episodes with that [season_id]; with neither it returns every episode.
    The collections are not changed. *)
Theorem list_episodes_selects (w : World) :
  let out := fun d : Document EpisodeIn.t =>
               EpisodeOut.mk (ObjectId_str (_id d)) (fields d) in
  let logged := mkWorld (db w) (trace w ++ [CallFind "episode"]) in
  (forall season_id,
      list_episodes season_id true w
      = (logged,
         Return (map out (filter (fun d => is_none (EpisodeIn.season_id (fields d)))
                                 (episode (db w))))))
  /\ (forall s,
      list_episodes (Some s) false w
      = (logged,
         Return (map out (filter (fun d =>
                                    if option_str_dec (EpisodeIn.season_id (fields d)) (Some s)
                                    then true else false)
                                 (episode (db w))))))
  /\ list_episodes None false w = (logged, Return (map out (episode (db w)))).
Proof.
  cbv zeta. split; [|split]; intros; rewrite list_episodes_run; cbn [season_id_query].
  - reflexivity.
  - do 3 f_equal. apply filter_ext. intros d. unfold by_season_id.
    destruct (option_str_dec _ _) as [E|E].
    + apply option_str_eqb_eq, E.
    + destruct (option_str_eqb _ _) eqn:E'; [|reflexivity].
      apply option_str_eqb_eq in E'. contradiction.
  - do 3 f_equal. unfold all_docs.
    induction (episode (db w)) as [|e c IH]; cbn; congruence.
Qed.


(* ================================================================= *)
(** ** C5: the rating of an episode *)

Lemma rating_in_range_iff (r : Z) : rating_in_range r = true <-> (1 <= r <= 10)%Z.
Proof. unfold rating_in_range. rewrite andb_true_iff, !Z.leb_le. tauto. Qed.

Lemma field_rating_accepts (p : option JsonValue) :
  (exists x, field_rating p = inr x) <-> rating_acceptable p.
Proof.
  unfold rating_acceptable, field_rating. destruct p as [j|].
  - destruct (int_lax j) as [r|] eqn:Er.
    + destruct (bool_dec (rating_in_range r) true) as [H|H].
      * split; [|eauto]. intros _. exists j, r.
        repeat split; [exact Er|apply rating_in_range_iff, H..].
      * split; [intros [x Hx]; discriminate|].
        intros (j' & r' & E & Er' & Hr). injection E as <-.
        rewrite Er in Er'. injection Er' as <-.
        apply rating_in_range_iff in Hr. contradiction.
    + split; [intros [x Hx]; discriminate|].
      intros (j' & r' & E & Er' & _). injection E as <-. congruence.
  - split; [intros [x H]|intros (j & r & H & _)]; discriminate.
Qed.

Lemma field_rating_loc (p : option JsonValue) (e : FieldError) :
  field_rating p = inl e -> loc e = "rating"%string.
Proof.
  unfold field_rating. destruct p as [j|].
  - destruct (int_lax j) as [r|].
    + destruct (bool_dec _ _); [discriminate|].
      intros H; injection H as <-; reflexivity.
    + intros H; injection H as <-; reflexivity.
  - intros H; injection H as <-; reflexivity.
Qed.

Lemma validate_EpisodeIn_rating (b : EpisodeBody.t) (p : EpisodeIn.t) :
  validate_EpisodeIn b = inr p ->
  exists j, EpisodeBody.rating b = Some j /\ int_lax j = Some (EpisodeIn.rating p).
Proof.
  unfold validate_EpisodeIn.
  destruct (field_required "title" _); [discriminate|].
  destruct (field_required "date" _); [discriminate|].
  destruct (field_rating (EpisodeBody.rating b)) as [e|[r Hr]] eqn:E; [discriminate|].
  destruct (field_default "plot_points" _ _); [discriminate|].
  destruct (field_default "season_id" _ _); [discriminate|].
  intros H. injection H as <-. cbn.
  unfold field_rating in E. destruct (EpisodeBody.rating b) as [j|]; [|discriminate].
  destruct (int_lax j) as [r'|] eqn:Ej; [|discriminate].
  destruct (bool_dec _ _); [|discriminate]. injection E as ->. eauto.
Qed.

Lemma validate_EpisodeIn_rejects (b : EpisodeBody.t) (e : FieldError) :
  field_rating (EpisodeBody.rating b) = inl e ->
  exists errors, validate_EpisodeIn b = inl errors /\ In e errors.
Proof.
  intros E. unfold validate_EpisodeIn. rewrite E.
  destruct (field_required "title" _), (field_required "date" _),
    (field_default "plot_points" _ _), (field_default "season_id" _ _);
    eexists; (split; [reflexivity|]); cbn; auto.
Qed.

(** C5, as stated, fails: a rating that is not an integer is accepted
    when it reads as one in the range.  The string ["7"], the number
    [7.0] and [true] all validate, to the ratings 7, 7 and 1, and the
    create is not refused with a validation error. *)
Lemma non_integer_rating_is_accepted :
  is_json_integer (JStr (Some 7%Z)) = false /\
  is_json_integer (JFloat 7 false) = false /\
  is_json_integer (JBool true) = false /\
  (exists p, validate_EpisodeIn (day_3_body (Some (JStr (Some 7%Z)))) = inr p /\
             EpisodeIn.rating p = 7%Z) /\
  (exists p, validate_EpisodeIn (day_3_body (Some (JFloat 7 false))) = inr p /\
             EpisodeIn.rating p = 7%Z) /\
  (exists p, validate_EpisodeIn (day_3_body (Some (JBool true))) = inr p /\
             EpisodeIn.rating p = 1%Z) /\
  ~ (exists errors,
        snd (post_episodes oid_a (day_3_body (Some (JStr (Some 7%Z)))) sample_world)
        = Raise (RequestValidationError errors)).
Proof.
  repeat (split; [first [reflexivity | eexists; split; reflexivity]|]).
  intros [errors H]. vm_compute in H. discriminate.
Qed.

(** C5, amended. For an episode create or update, validation accepts the
    rating if and only if it is present and reads, in pydantic's lax
    mode, as an integer of the inclusive range 1 to 10: an integer reads
    as itself, and so do a number without fractional part, a string that
    spells an integer and a boolean; 1 and 10 pass, 0 and 11 do not, nor
    does a value that reads as no integer.  A body whose rating is not
    accepted is refused with a validation error that names the field,
    status 422, and the world, its record of store calls included, is
    untouched; a body that validates carries the integer its rating
    reads as, within the range. *)
Theorem rating_accepted_iff_reads_in_range :
  (forall p : option JsonValue, (exists x, field_rating p = inr x) <-> rating_acceptable p)
  /\ (forall z : Z, rating_acceptable (Some (JInt z)) <-> (1 <= z <= 10)%Z)
  /\ (forall b p,
      validate_EpisodeIn b = inr p ->
      (exists j, EpisodeBody.rating b = Some j /\ int_lax j = Some (EpisodeIn.rating p)) /\
      (1 <= EpisodeIn.rating p <= 10)%Z)
  /\ (forall b t d,
      rating_acceptable (EpisodeBody.rating b) ->
      EpisodeBody.title b = Value t ->
      EpisodeBody.date b = Value d ->
      EpisodeBody.plot_points b <> Unparsable ->
      EpisodeBody.season_id b <> Unparsable ->
      exists p, validate_EpisodeIn b = inr p)
  /\ (forall b,
      ~ rating_acceptable (EpisodeBody.rating b) ->
      exists errors k,
        validate_EpisodeIn b = inl errors /\
        In (mkFieldError "rating" k) errors /\
        forall w new_oid episode_id,
          post_episodes new_oid b w = (w, Raise (RequestValidationError errors)) /\
          patch_episodes episode_id b w = (w, Raise (RequestValidationError errors)) /\
          status_of (snd (post_episodes new_oid b w)) = 422%Z /\
          status_of (snd (patch_episodes episode_id b w)) = 422%Z)
  /\ rating_acceptable (Some (JInt 1)) /\ rating_acceptable (Some (JInt 10))
  /\ ~ rating_acceptable (Some (JInt 0)) /\ ~ rating_acceptable (Some (JInt 11))
  /\ ~ rating_acceptable (Some (JFloat 7 true)) /\ ~ rating_acceptable (Some (JStr None))
  /\ ~ rating_acceptable (Some JOther) /\ ~ rating_acceptable None.
Proof.
  assert (forall z : Z, rating_acceptable (Some (JInt z)) <-> (1 <= z <= 10)%Z) as Hint.
  { intros z. unfold rating_acceptable. split.
    - intros (j & r & E & Er & Hr). injection E as <-. cbn in Er.
      injection Er as <-. exact Hr.
    - intros Hr. exists (JInt z), z. auto. }
  assert (forall j, int_lax j = None -> ~ rating_acceptable (Some j)) as Hnone.
  { intros j Ej (j' & r & E & Er & _). injection E as <-. congruence. }
  split; [exact field_rating_accepts|].
  split; [exact Hint|].
  split.
  { intros b p H. split; [apply validate_EpisodeIn_rating, H|].
    apply rating_in_range_iff, EpisodeIn.rating_ok. }
  split.
  { intros b t d Hr Ht Hd Hp Hs.
    apply field_rating_accepts in Hr as [[r Hr] E].
    unfold validate_EpisodeIn. rewrite E, Ht, Hd. cbn.
    destruct (EpisodeBody.plot_points b); try contradiction;
      destruct (EpisodeBody.season_id b); try contradiction; cbn; eauto. }
  split.
  { intros b Hr.
    destruct (field_rating (EpisodeBody.rating b)) as [e|x] eqn:E.
    2:{ exfalso. apply Hr, field_rating_accepts. eauto. }
    destruct (validate_EpisodeIn_rejects b e E) as (errors & Hv & Hin).
    pose proof (field_rating_loc _ _ E) as Hloc.
    destruct e as [l k]. cbn in Hloc. subst l.
    exists errors, k. split; [exact Hv|]. split; [exact Hin|].
    intros w new_oid episode_id.
    unfold post_episodes, patch_episodes, with_body. rewrite Hv. cbn. auto. }
  split; [apply Hint; lia|]. split; [apply Hint; lia|].
  split; [rewrite Hint; lia|]. split; [rewrite Hint; lia|].
  split; [apply Hnone; reflexivity|]. split; [apply Hnone; reflexivity|].
  split; [apply Hnone; reflexivity|].
  intros (j & r & E & _). discriminate.
Qed.

Lemma rating_accepted_iff_reads_in_range_witness :
  (exists p, validate_EpisodeIn (day_3_body (Some (JInt 10))) = inr p) /\
  (exists errors k,
      validate_EpisodeIn (day_3_body (Some (JInt 11))) = inl errors /\
      In (mkFieldError "rating" k) errors /\
      post_episodes oid_a (day_3_body (Some (JInt 11))) sample_world
      = (sample_world, Raise (RequestValidationError errors))).
Proof.
  destruct rating_accepted_iff_reads_in_range
    as (_ & _ & _ & Haccept & Hreject & _ & Hten & _ & Heleven & _).
  split.
  - apply (Haccept (day_3_body (Some (JInt 10))) (lit "Day 3") (mkDate 2024 1 3) Hten);
      [reflexivity|reflexivity|discriminate|discriminate].
  - destruct (Hreject (day_3_body (Some (JInt 11))) Heleven)
      as (errors & k & Hv & Hin & Hrun).
    exists errors, k. split; [exact Hv|]. split; [exact Hin|].
    apply (Hrun sample_world oid_a []).
Defined.

(* ================================================================= *)
(** ** C7: the title of a season *)

(** C7, as stated, fails: a body whose title is the empty string
    validates, and the create inserts the season. *)
Lemma empty_title_is_accepted :
  SeasonBody.title untitled_body = Value [] /\
  validate_SeasonIn untitled_body = inr (SeasonIn.mk [] None None None true) /\
  post_seasons oid_a untitled_body empty_world
  = (mkWorld (mkDatabase [mkDocument oid_a (SeasonIn.mk [] None None None true)] [])
             [CallUpdateMany "season"; CallInsertOne "season" true;
              CallFindOne "season" true],
     Return (SeasonOut.mk (ObjectId_str oid_a) (SeasonIn.mk [] None None None true))) /\
  ~ (exists errors,
        post_seasons oid_a untitled_body empty_world
        = (empty_world, Raise (RequestValidationError errors))).
Proof.
  split; [reflexivity|]. split; [reflexivity|]. split; [reflexivity|].
  intros [errors H]. vm_compute in H. discriminate.
Qed.

Lemma validate_SeasonIn_title (b : SeasonBody.t) (e : FieldError) :
  field_required "title" (SeasonBody.title b) = inl e ->
  exists errors, validate_SeasonIn b = inl errors /\ In e errors.
Proof.
  intros E. unfold validate_SeasonIn. rewrite E.
  eexists. split; [reflexivity|]. cbn. auto.
Qed.

Lemma validate_SeasonIn_other_errors (b : SeasonBody.t) (t : str) errors :
  SeasonBody.title b = Value t ->
  validate_SeasonIn b = inl errors ->
  forall e, In e errors -> loc e <> "title"%string.
Proof.
  intros Ht. unfold validate_SeasonIn. rewrite Ht. cbn [field_required].
  destruct (SeasonBody.description b), (SeasonBody.start_date b),
    (SeasonBody.end_date b), (SeasonBody.is_active b);
    cbn; intros H; try discriminate; injection H as <-;
    intros e He; cbn in He;
    repeat (destruct He as [<-|He]; [cbn; discriminate|]); contradiction.
Qed.

(** C7, amended. Season create and update require the title to be present
    and a string, and nothing more: a body whose title is missing or is
    not a string is refused with a validation error on [title], and no
    document is inserted or modified; a body whose title is a string,
    the empty one included, is never refused on account of its title. *)
Theorem title_required_may_be_empty :
  (forall b,
      SeasonBody.title b = Missing \/ SeasonBody.title b = Unparsable ->
      exists errors k,
        validate_SeasonIn b = inl errors /\
        In (mkFieldError "title" k) errors /\
        forall w new_oid season_id,
          post_seasons new_oid b w = (w, Raise (RequestValidationError errors)) /\
          patch_seasons season_id b w = (w, Raise (RequestValidationError errors)))
  /\ (forall b t errors,
      SeasonBody.title b = Value t ->
      validate_SeasonIn b = inl errors ->
      forall e, In e errors -> loc e <> "title"%string)
  /\ (forall b t,
      SeasonBody.title b = Value t ->
      SeasonBody.description b <> Unparsable ->
      SeasonBody.start_date b <> Unparsable ->
      SeasonBody.end_date b <> Unparsable ->
      SeasonBody.is_active b <> Unparsable ->
      exists p, validate_SeasonIn b = inr p /\ SeasonIn.title p = t).
Proof.
  split; [|split].
  - intros b Hb.
    assert (exists k, field_required "title" (SeasonBody.title b)
                      = inl (mkFieldError "title" k)) as [k E].
    { destruct Hb as [-> | ->]; cbn; eauto. }
    destruct (validate_SeasonIn_title b _ E) as (errors & Hv & Hin).
    exists errors, k. split; [exact Hv|]. split; [exact Hin|].
    intros w new_oid season_id.
    unfold post_seasons, patch_seasons, with_body. rewrite Hv. auto.
  - exact validate_SeasonIn_other_errors.
  - intros b t Ht Hd Hs He Ha.
    unfold validate_SeasonIn. rewrite Ht. cbn [field_required].
    destruct (SeasonBody.description b), (SeasonBody.start_date b),
      (SeasonBody.end_date b), (SeasonBody.is_active b);
      try contradiction; cbn; eauto.
Qed.

Lemma title_required_may_be_empty_witness :
  (exists errors k,
      validate_SeasonIn (SeasonBody.mk Missing Missing Missing Missing Missing)
      = inl errors /\
      In (mkFieldError "title" k) errors) /\
  (exists p, validate_SeasonIn untitled_body = inr p /\ SeasonIn.title p = []).
Proof.
  destruct title_required_may_be_empty as (Hreject & _ & Haccept).
  split.
  - destruct (Hreject (SeasonBody.mk Missing Missing Missing Missing Missing)
                (or_introl eq_refl)) as (errors & k & Hv & Hin & _).
    exists errors, k. auto.
  - apply (Haccept untitled_body []); [reflexivity|discriminate..].
Defined.

(* ================================================================= *)
(** ** C8: the diagnostic handler *)

Lemma length_slice_to (n : nat) (s : str) : length (slice_to n s) <= n.
Proof. unfold slice_to. apply firstn_le_length. Qed.

Lemma slice_to_prefix (n : nat) (s : str) : exists rest, s = slice_to n s ++ rest.
Proof. exists (skipn n s). unfold slice_to. symmetry. apply firstn_skipn. Qed.

(** C8. [test_database] returns its payload for every value of [db]: for
    no connection the initial payload; for a connection whose
    [list_collection_names] raises, or whose [name] cannot be read, the
    error is reported in the [database] entry, shortened to its first 60
    characters at most; for a working connection the collection names. *)
Theorem test_database_never_fails (db : option DbObject) :
  exists r,
    test_database db = Return r /\
    backend r = check_mark ++ lit " Running" /\
    (db = None -> r = initial_response) /\
    (forall d e,
        db = Some d -> name d = AttrRaises e ->
        database r = cross_mark ++ lit " Error: " ++ slice_to 60 (exc_str e) /\
        length (slice_to 60 (exc_str e)) <= 60 /\
        (exists rest, exc_str e = slice_to 60 (exc_str e) ++ rest) /\
        connection_status r = lit "Not Connected") /\
    (forall d e,
        db = Some d -> (forall e', name d <> AttrRaises e') ->
        list_collection_names d = inl e ->
        database r
        = warning_sign ++ lit " Connected but Error: " ++ slice_to 60 (exc_str e) /\
        length (slice_to 60 (exc_str e)) <= 60 /\
        (exists rest, exc_str e = slice_to 60 (exc_str e) ++ rest) /\
        connection_status r = lit "Connected" /\
        collections r = []) /\
    (forall d names,
        db = Some d -> (forall e', name d <> AttrRaises e') ->
        list_collection_names d = inr names ->
        database r = check_mark ++ lit " Connected & Working" /\
        connection_status r = lit "Connected" /\
        collections r = names).
Proof.
  destruct db as [[n l]|].
  - destruct n as [v| |e].
    + destruct l as [e|names]; eexists; (split; [reflexivity|]);
        (split; [reflexivity|]); (split; [discriminate|]); cbn [database
          connection_status collections]; (split; [|split]); intros d x Hd;
        injection Hd as <-; cbn [name list_collection_names]; intros H;
        try discriminate H; intros H'; try discriminate H';
        injection H' as <-; repeat split;
        first [apply length_slice_to | apply slice_to_prefix].
    + destruct l as [e|names]; eexists; (split; [reflexivity|]);
        (split; [reflexivity|]); (split; [discriminate|]); cbn [database
          connection_status collections]; (split; [|split]); intros d x Hd;
        injection Hd as <-; cbn [name list_collection_names]; intros H;
        try discriminate H; intros H'; try discriminate H';
        injection H' as <-; repeat split;
        first [apply length_slice_to | apply slice_to_prefix].
    + eexists. split; [reflexivity|]. split; [reflexivity|].
      split; [discriminate|]. cbn [database connection_status collections].
      split; [|split]; intros d x Hd; injection Hd as <-; cbn [name].
      * intros H. injection H as <-. repeat split;
          first [apply length_slice_to | apply slice_to_prefix].
      * intros H. exfalso. exact (H e eq_refl).
      * intros H. exfalso. exact (H e eq_refl).
  - eexists. split; [reflexivity|]. split; [reflexivity|]. split; [reflexivity|].
    repeat split; intros; discriminate.
Qed.

Lemma test_database_never_fails_witness :
  exists r,
    test_database (Some failing_db) = Return r /\
    database r = warning_sign ++ lit " Connected but Error: " ++ repeat 120%N 60 /\
    length (slice_to 60 (exc_str (mkPyException "ServerSelectionTimeoutError"
                                                  (repeat 120%N 100)))) <= 60.
Proof.
  destruct (test_database_never_fails (Some failing_db))
    as (r & Hrun & _ & _ & _ & Herr & _).
  exists r. split; [exact Hrun|].
  destruct (Herr failing_db _ eq_refl (fun e' H => ltac:(discriminate H)) eq_refl)
    as (Hdb & Hlen & _).
  split; [exact Hdb|exact Hlen].
Defined.




(* ################################################################# *)
(** * Part III: further properties of the handlers *)

Lemma ObjectId_str_inj (a b : ObjectId) : ObjectId_str a = ObjectId_str b -> a = b.
Proof.
  intros H. pose proof (ObjectId_init_str a) as Ha.
  rewrite H, ObjectId_init_str in Ha. congruence.
Qed.

(* ================================================================= *)
(** ** The status of an update and of a delete *)

Lemma answers_by_id_intro (F A : Type) (c : list (Document F)) (id : str)
    (r : result Exception A) :
  (ObjectId_new id = None /\ status_of r = 400%Z)
  \/ (ObjectId_new id <> None /\
      (forall oid, ObjectId_init id = Some oid -> stored oid c = false) /\
      status_of r = 404%Z)
  \/ (exists oid, ObjectId_init id = Some oid /\ stored oid c = true /\
                  status_of r = 200%Z) ->
  answers_by_id c id r.
Proof.
  unfold answers_by_id.
  intros [[Hnew Hr]|[(Hnew & Hnone & Hr)|(oid & Hid & Hs & Hr)]]; rewrite Hr.
  - split; [split; auto|].
    intros oid Hid. rewrite (ObjectId_init_refused _ Hnew) in Hid. discriminate.
  - split; [split; [discriminate|contradiction]|].
    intros oid Hid. rewrite (Hnone oid Hid).
    split; split; auto; discriminate.
  - split.
    + split; [discriminate|]. intros Hnew.
      rewrite (ObjectId_init_refused _ Hnew) in Hid. discriminate.
    + intros o Ho. rewrite Hid in Ho. injection Ho as <-. rewrite Hs.
      split; split; auto; discriminate.
Qed.

Lemma answers_500_intro (A : Type) (id : str) (r : result Exception A) :
  (ObjectId_new id = None /\ status_of r = 400%Z)
  \/ (ObjectId_new id <> None /\ status_of r = 500%Z) ->
  answers_500_past_id id r.
Proof.
  unfold answers_500_past_id. intros [[Hnew Hr]|[Hnew Hr]]; rewrite Hr.
  - split; [split; auto|contradiction].
  - split; [split; [discriminate|contradiction]|auto].
Qed.

(** X1. The two deletes answer 400 exactly when [ObjectId] refuses the
    path identifier and, for an identifier of 12 bytes, 404 exactly when
    it is not stored in the collection of the route and 200 exactly when
    it is; the season update does the same for an input that sets
    neither date.  The episode update, and the season update for an
    input that sets a date, answer 400 exactly when [ObjectId] refuses
    the identifier and 500 for every other: their store call cannot be
    encoded. *)
Theorem update_delete_status (w : World) (id : str) :
  answers_by_id (season (db w)) id (snd (delete_season id w)) /\
  answers_by_id (episode (db w)) id (snd (delete_episode id w)) /\
  (forall payload,
      SeasonIn.start_date payload = None -> SeasonIn.end_date payload = None ->
      answers_by_id (season (db w)) id (snd (update_season id payload w))) /\
  (forall payload,
      SeasonIn.start_date payload <> None \/ SeasonIn.end_date payload <> None ->
      answers_500_past_id id (snd (update_season id payload w))) /\
  (forall payload, answers_500_past_id id (snd (update_episode id payload w))).
Proof.
  refine (conj _ (conj _ (conj _ (conj _ _)))).
  - apply answers_by_id_intro.
    destruct (delete_season_cases id w)
      as [[Hnew ->]|[(Hnew & Hnone & ->)|(oid & b & d & a & Hid & Hs & _ & _ & _ & ->)]];
      eauto 10.
  - apply answers_by_id_intro.
    destruct (delete_episode_cases id w)
      as [[Hnew ->]|[(Hnew & Hnone & ->)|(oid & b & d & a & Hid & Hs & _ & _ & _ & ->)]];
      eauto 10.
  - intros payload Hstart Hend. apply answers_by_id_intro.
    assert (SeasonIn_encodes payload = true) as Henc
      by (apply SeasonIn_encodes_undated; auto).
    destruct (update_season_cases id payload w)
      as [[Hnew ->]|[(_ & Hno & _)|[(Hnew & _ & Hnone & _ & ->)
         |(oid & b & d & a & Hid & _ & Hs & _ & _ & _ & ->)]]];
      [eauto 10|congruence|eauto 10|eauto 10].
  - intros payload Hdated. apply answers_500_intro.
    destruct (update_season_cases id payload w)
      as [[Hnew ->]|[(Hnew & _ & ->)|[(_ & Henc & _)|(oid & b & d & a & _ & Henc & _)]]];
      [auto|auto|exfalso..];
      apply SeasonIn_encodes_undated in Henc as [? ?]; destruct Hdated; contradiction.
  - intros payload. apply answers_500_intro.
    destruct (update_episode_cases id payload w) as [[Hnew ->]|[Hnew ->]]; auto.
Qed.

Lemma update_delete_status_witness :
  status_of (snd (update_season (ObjectId_str oid_c) sabbatical sample_world)) = 404%Z /\
  status_of (snd (update_season (ObjectId_str oid_a) sabbatical sample_world)) = 200%Z /\
  status_of (snd (update_season (ObjectId_str oid_a) year_four sample_world)) = 500%Z.
Proof.
  assert (SeasonIn.start_date year_four <> None) as Hdated by discriminate.
  destruct (update_delete_status sample_world (ObjectId_str oid_c))
    as (_ & _ & Hmiss & _).
  destruct (update_delete_status sample_world (ObjectId_str oid_a))
    as (_ & _ & Hhit & Hfail & _).
  destruct (Hmiss sabbatical eq_refl eq_refl) as (_ & Hc).
  destruct (Hhit sabbatical eq_refl eq_refl) as (_ & Ha).
  destruct (Hfail year_four (or_introl Hdated)) as (_ & H500).
  split; [apply (Hc oid_c (ObjectId_init_str oid_c)); reflexivity|].
  split; [apply (Ha oid_a (ObjectId_init_str oid_a)); reflexivity|].
  apply H500. rewrite ObjectId_new_str. discriminate.
Defined.

(* ================================================================= *)
(** ** Two invariants of the store *)

Lemma ids_replaced (F : Type) (before after : list (Document F)) d d' :
  _id d' = _id d ->
  map (@_id F) (before ++ d' :: after) = map (@_id F) (before ++ d :: after).
Proof. intros E. rewrite !map_app. cbn. rewrite E. reflexivity. Qed.

(** X2. Every handler keeps the identifiers of each collection pairwise
    distinct, whatever it is given and whether it returns or raises. *)
Theorem handlers_keep_ids_unique (w : World) :
  unique_ids w ->
  (forall new_oid payload, unique_ids (fst (create_season new_oid payload w))) /\
  (forall season_id payload, unique_ids (fst (update_season season_id payload w))) /\
  (forall season_id, unique_ids (fst (delete_season season_id w))) /\
  (forall new_oid payload, unique_ids (fst (create_episode new_oid payload w))) /\
  (forall episode_id payload, unique_ids (fst (update_episode episode_id payload w))) /\
  (forall episode_id, unique_ids (fst (delete_episode episode_id w))).
Proof.
  unfold unique_ids. intros [Hs He].
  split; [|split; [|split; [|split; [|split]]]].
  - intros new_oid payload. rewrite create_season_run. cbv zeta.
    destruct (stored new_oid (season (db w))) eqn:Hst; cbn [fst db season episode].
    + rewrite ids_after_guard, episode_after_guard. auto.
    + rewrite episode_after_guard. split; [|exact He].
      apply unique_after_insert.
      * rewrite ids_after_guard. exact Hs.
      * cbn [_id]. rewrite stored_after_guard. exact Hst.
  - intros season_id payload.
    destruct (update_season_cases season_id payload w)
      as [[_ ->]|[(_ & _ & ->)|[(_ & _ & _ & _ & ->)
         |(oid & b & d & a & _ & _ & _ & Hc & _ & Hd & ->)]]];
      cbn [fst db season episode]; auto.
    + rewrite ids_after_guard, episode_after_guard. auto.
    + rewrite ids_after_guard, episode_after_guard. auto.
    + split; [|exact He].
      rewrite (ids_replaced _ b a d) by (symmetry; exact Hd).
      rewrite <- Hc, ids_after_guard. exact Hs.
  - intros season_id.
    destruct (delete_season_cases season_id w)
      as [[_ ->]|[(_ & _ & ->)|(oid & b & d & a & _ & _ & Hc & _ & Hd & ->)]];
      cbn [fst db season episode]; auto.
    rewrite update_many_ids. split; [|exact He].
    rewrite Hc in Hs. apply (unique_after_removal _ b a d Hs).
  - intros new_oid payload. rewrite create_episode_run.
    destruct (stored new_oid (episode (db w))) eqn:Hst; cbn [fst db season episode]; auto.
    split; [exact Hs|]. apply unique_after_insert; assumption.
  - intros episode_id payload.
    destruct (update_episode_cases episode_id payload w) as [[_ ->]|[_ ->]];
      cbn [fst]; auto.
  - intros episode_id.
    destruct (delete_episode_cases episode_id w)
      as [[_ ->]|[(_ & _ & ->)|(oid & b & d & a & _ & _ & Hc & _ & Hd & ->)]];
      cbn [fst db season episode]; auto.
    split; [exact Hs|].
    rewrite Hc in He. apply (unique_after_removal _ b a d He).
Qed.

Lemma handlers_keep_ids_unique_witness :
  unique_ids sample_world /\
  unique_ids (fst (create_season oid_a sabbatical sample_world)) /\
  unique_ids (fst (delete_season (ObjectId_str oid_b) sample_world)).
Proof.
  assert (unique_ids sample_world) as H.
  { split; cbn; repeat constructor; cbn; intros E;
      repeat (destruct E as [E|E]; [discriminate E|]); exact E. }
  destruct (handlers_keep_ids_unique sample_world H) as (Hc & _ & Hd & _).
  split; [exact H|]. split; [apply Hc|apply Hd].
Defined.

(** X3. Every handler keeps the rule that at most one season is active,
    whatever it is given and whether it returns or raises. *)
Theorem handlers_keep_one_active (w : World) :
  at_most_one_active w ->
  (forall new_oid payload, at_most_one_active (fst (create_season new_oid payload w))) /\
  (forall season_id payload,
      at_most_one_active (fst (update_season season_id payload w))) /\
  (forall season_id, at_most_one_active (fst (delete_season season_id w))) /\
  (forall new_oid payload, at_most_one_active (fst (create_episode new_oid payload w))) /\
  (forall episode_id payload,
      at_most_one_active (fst (update_episode episode_id payload w))) /\
  (forall episode_id, at_most_one_active (fst (delete_episode episode_id w))).
Proof.
  unfold at_most_one_active. intros H.
  assert (forall payload,
             length (active (season (db (after_guard payload w)))) <= 1) as Hg.
  { intros payload. destruct (SeasonIn.is_active payload) eqn:Ha.
    - rewrite (active_after_guard _ w Ha). cbn. lia.
    - rewrite (after_guard_inactive _ w Ha). exact H. }
  split; [|split; [|split; [|split; [|split]]]].
  - intros new_oid payload. rewrite create_season_run. cbv zeta.
    destruct (stored new_oid (season (db w))); cbn [fst db season]; [apply Hg|].
    rewrite active_app, length_app.
    destruct (SeasonIn.is_active payload) eqn:Ha.
    + rewrite (active_after_guard _ w Ha). apply active_one_le.
    + rewrite (after_guard_inactive _ w Ha). cbn. rewrite Ha. cbn. lia.
  - intros season_id payload.
    destruct (update_season_cases season_id payload w)
      as [[_ ->]|[(_ & _ & ->)|[(_ & _ & _ & _ & ->)
         |(oid & b & d & a & _ & _ & _ & Hc & _ & _ & ->)]]];
      cbn [fst db season]; [exact H|apply Hg|apply Hg|].
    rewrite active_split.
    destruct (SeasonIn.is_active payload) eqn:Ha.
    + pose proof (active_after_guard _ w Ha) as Hnone.
      rewrite Hc in Hnone. apply (f_equal (@length _)) in Hnone.
      rewrite active_split in Hnone. cbn in Hnone |- *. rewrite Ha. cbn. lia.
    + specialize (Hg payload). rewrite Hc, active_split in Hg.
      cbn. rewrite Ha. cbn. lia.
  - intros season_id.
    destruct (delete_season_cases season_id w)
      as [[_ ->]|[(_ & _ & ->)|(oid & b & d & a & _ & _ & Hc & _ & _ & ->)]];
      cbn [fst db season]; [exact H|exact H|].
    rewrite Hc, active_split in H. rewrite active_app, length_app. lia.
  - intros new_oid payload. rewrite create_episode_run.
    destruct (stored new_oid (episode (db w))); exact H.
  - intros episode_id payload.
    destruct (update_episode_cases episode_id payload w) as [[_ ->]|[_ ->]]; exact H.
  - intros episode_id.
    destruct (delete_episode_cases episode_id w)
      as [[_ ->]|[(_ & _ & ->)|(oid & b & d & a & _ & _ & _ & _ & _ & ->)]];
      exact H.
Qed.

Lemma handlers_keep_one_active_witness :
  at_most_one_active settled_world /\
  length (active (season (db settled_world))) = 1 /\
  at_most_one_active (fst (create_season oid_c year_one settled_world)) /\
  at_most_one_active (fst (update_season (ObjectId_str oid_a) year_one settled_world)) /\
  at_most_one_active (fst (delete_season (ObjectId_str oid_a) settled_world)).
Proof.
  assert (at_most_one_active settled_world) as H
    by (unfold at_most_one_active; cbn; lia).
  destruct (handlers_keep_one_active settled_world H) as (Hc & Hu & Hd & _).
  split; [exact H|]. split; [reflexivity|].
  split; [apply Hc|]. split; [apply Hu|apply Hd].
Defined.

(* ================================================================= *)
(** ** What an activating write does to the other seasons *)

(** X4. A create or update with [is_active = true] that succeeds leaves
    every other season with its identifier and all its fields except
    [is_active], which is false; the create appends the new season, the
    update replaces the fields of the first season that carries the
    identifier, and the episodes are as they were. *)
Theorem activating_write_deactivates_others (payload : SeasonIn.t) (w : World) :
  SeasonIn.is_active payload = true ->
  (forall new_oid w' out,
      create_season new_oid payload w = (w', Return out) ->
      season (db w') = map deactivate (season (db w)) ++ [mkDocument new_oid payload] /\
      episode (db w') = episode (db w))
  /\ (forall season_id w' out,
      update_season season_id payload w = (w', Return out) ->
      exists oid before d after,
        ObjectId_init season_id = Some oid /\
        season (db w) = before ++ d :: after /\
        _id d = oid /\ stored oid before = false /\
        season (db w')
        = map deactivate before ++ mkDocument oid payload :: map deactivate after /\
        episode (db w') = episode (db w)).
Proof.
  intros Ha. split.
  - intros new_oid w' out H. rewrite create_season_run in H. cbv zeta in H.
    destruct (stored new_oid (season (db w))); [discriminate|].
    injection H as <- _. cbn [db season episode].
    rewrite (after_guard_active _ w Ha), episode_after_guard. auto.
  - intros season_id w' out H.
    destruct (update_season_cases season_id payload w)
      as [[_ E]|[(_ & _ & E)|[(_ & _ & _ & _ & E)
         |(oid & b & d & a & Hid & _ & _ & Hc & Hb & Hd & E)]]];
      rewrite E in H; try discriminate.
    injection H as <- _. cbn [db season episode].
    rewrite (after_guard_active _ w Ha) in Hc.
    apply map_eq_app in Hc as (b0 & rest & Hw & Hb0 & Hrest).
    destruct rest as [|d0 a0]; [discriminate|]. cbn in Hrest.
    injection Hrest as Hd0 Ha0.
    exists oid, b0, d0, a0. subst b d a. cbn in Hd.
    split; [exact Hid|]. split; [exact Hw|]. split; [exact Hd|].
    split; [|auto].
    rewrite <- Hb, <- update_many_all. symmetry. apply stored_update_many.
Qed.

Lemma activating_write_deactivates_others_witness :
  SeasonIn.is_active year_one = true /\
  season (db (fst (create_season oid_c year_one sample_world)))
  = [mkDocument oid_a (SeasonIn.set_is_active false year_one);
     mkDocument oid_b (SeasonIn.set_is_active false year_two);
     mkDocument oid_c year_one].
Proof.
  split; [reflexivity|].
  destruct (activating_write_deactivates_others year_one sample_world eq_refl)
    as (Hcreate & _).
  apply (Hcreate oid_c _ (SeasonOut.mk (ObjectId_str oid_c) year_one)).
  vm_compute. reflexivity.
Defined.

(* ================================================================= *)
(** ** Listing, and using what was listed *)

Lemma filter_all_docs (F : Type) (c : list (Document F)) : filter all_docs c = c.
Proof.
  unfold all_docs. induction c as [|x c IH]; cbn; congruence.
Qed.

Lemma list_seasons_run w :
  list_seasons w
  = (mkWorld (db w) (trace w ++ [CallFind "season"]),
     Return (map season_out (season (db w)))).
Proof.
  unfold list_seasons, bind, get_documents, ret, coll_find.
  cbn [get db_season cname]. rewrite filter_all_docs. reflexivity.
Qed.

Lemma list_episodes_db season_id unsorted w :
  db (fst (list_episodes season_id unsorted w)) = db w.
Proof. rewrite list_episodes_run. reflexivity. Qed.

Lemma list_episodes_from season_id unsorted w w1 outs out :
  list_episodes season_id unsorted w = (w1, Return outs) -> In out outs ->
  db w1 = db w /\ exists d, In d (episode (db w)) /\ out = episode_out d.
Proof.
  rewrite list_episodes_run. intros H Hin. injection H as <- <-.
  split; [reflexivity|].
  apply in_map_iff in Hin as (d & <- & Hd).
  apply filter_In in Hd as [Hd _]. eauto.
Qed.

(** X5. A season or an episode that was created is listed: after a
    create that returned, [list_seasons] returns one entry more than there
    were seasons, the created one among them, and [list_episodes] returns
    the created episode both unfiltered and under the filter that matches
    its [season_id] (the unsorted one when it has none). *)
Theorem created_is_listed (w : World) :
  (forall new_oid payload w1 out,
      create_season new_oid payload w = (w1, Return out) ->
      exists outs,
        snd (list_seasons w1) = Return outs /\
        In out outs /\ length outs = S (length (season (db w))))
  /\ (forall new_oid payload w1 out,
      create_episode new_oid payload w = (w1, Return out) ->
      (exists outs,
          snd (list_episodes None false w1) = Return outs /\
          In out outs /\ length outs = S (length (episode (db w)))) /\
      (exists outs,
          snd (list_episodes (EpisodeIn.season_id payload)
                 (is_none (EpisodeIn.season_id payload)) w1) = Return outs /\
          In out outs)).
Proof.
  split.
  - intros new_oid payload w1 out H.
    rewrite create_season_run in H. cbv zeta in H.
    destruct (stored new_oid (season (db w))); [discriminate|].
    injection H as <- <-. rewrite list_seasons_run. cbn [snd db season].
    eexists. split; [reflexivity|]. split.
    + rewrite map_app. apply in_or_app. right. left. reflexivity.
    + rewrite length_map, length_app. cbn.
      unfold after_guard. destruct (SeasonIn.is_active payload); cbn;
        rewrite ?length_map; lia.
  - intros new_oid payload w1 out H.
    rewrite create_episode_run in H.
    destruct (stored new_oid (episode (db w))); [discriminate|].
    injection H as <- <-. rewrite !list_episodes_run. cbn [snd db episode].
    split; eexists; (split; [reflexivity|]).
    + cbn [season_id_query]. rewrite filter_all_docs. split.
      * rewrite map_app. apply in_or_app. right. left. reflexivity.
      * rewrite length_map, length_app. cbn. lia.
    + apply in_map_iff. exists (mkDocument new_oid payload).
      split; [reflexivity|]. apply filter_In. split.
      * apply in_or_app. right. left. reflexivity.
      * destruct (EpisodeIn.season_id payload) as [s|] eqn:E;
          cbn [is_none season_id_query]; unfold by_season_id; cbn [fields];
          rewrite E; apply option_str_eqb_eq; reflexivity.
Qed.

(** X6. An identifier served by a listing is accepted back by the
    routes whose store call can be encoded: on the world the listing
    left, a season update that sets neither date returns the document
    under the [id] of any listed season with the fields sent, and a
    delete with the [id] of a listed season or episode returns the
    acknowledgement. *)
Theorem listed_ids_are_accepted (w : World) :
  (forall w1 outs out,
      list_seasons w = (w1, Return outs) -> In out outs ->
      (forall payload,
          SeasonIn.start_date payload = None -> SeasonIn.end_date payload = None ->
          snd (update_season (SeasonOut.id out) payload w1)
          = Return (SeasonOut.mk (SeasonOut.id out) payload)) /\
      snd (delete_season (SeasonOut.id out) w1) = Return status_ok)
  /\ (forall season_id unsorted w1 outs out,
      list_episodes season_id unsorted w = (w1, Return outs) -> In out outs ->
      snd (delete_episode (EpisodeOut.id out) w1) = Return status_ok).
Proof.
  split.
  - intros w1 outs out H Hin. rewrite list_seasons_run in H.
    injection H as <- <-. apply in_map_iff in Hin as (d & <- & Hd).
    cbn [season_out SeasonOut.id].
    pose proof (ObjectId_init_str (_id d)) as Hid.
    pose proof (ObjectId_new_str (_id d)) as Hn.
    pose proof (stored_of_In _ d _ Hd) as Hs.
    split; [intros payload Hstart Hend|].
    + assert (SeasonIn_encodes payload = true) as Henc
        by (apply SeasonIn_encodes_undated; auto).
      destruct (update_season_cases (ObjectId_str (_id d)) payload
                  (mkWorld (db w) (trace w ++ [CallFind "season"])))
        as [[E _]|[(_ & E & _)|[(_ & _ & Hnone & _)
           |(oid & b & x & a & E & _ & _ & _ & _ & _ & ->)]]].
      * congruence.
      * congruence.
      * specialize (Hnone _ Hid). cbn [db] in Hnone. congruence.
      * rewrite Hid in E. injection E as <-. reflexivity.
    + destruct (delete_season_cases (ObjectId_str (_id d))
                  (mkWorld (db w) (trace w ++ [CallFind "season"])))
        as [[E _]|[(_ & Hnone & _)|(oid & b & x & a & E & _ & _ & _ & _ & ->)]].
      * congruence.
      * specialize (Hnone _ Hid). cbn [db] in Hnone. congruence.
      * reflexivity.
  - intros season_id unsorted w1 outs out H Hin.
    destruct (list_episodes_from _ _ _ _ _ _ H Hin) as (Hdb & d & Hd & ->).
    cbn [episode_out EpisodeOut.id].
    pose proof (ObjectId_init_str (_id d)) as Hid.
    pose proof (ObjectId_new_str (_id d)) as Hn.
    pose proof (stored_of_In _ d _ Hd) as Hs. rewrite <- Hdb in Hs.
    destruct (delete_episode_cases (ObjectId_str (_id d)) w1)
      as [[E _]|[(_ & Hnone & _)|(oid & b & x & a & E & _ & _ & _ & _ & ->)]].
    + congruence.
    + specialize (Hnone _ Hid). congruence.
    + reflexivity.
Qed.

Lemma listed_ids_are_accepted_witness :
  snd (update_season (lit "0a0a0a0a0a0a0a0a0a0a0a0a") sabbatical
         (fst (list_seasons sample_world)))
  = Return (SeasonOut.mk (lit "0a0a0a0a0a0a0a0a0a0a0a0a") sabbatical) /\
  snd (delete_season (lit "0a0a0a0a0a0a0a0a0a0a0a0a")
         (fst (list_seasons sample_world))) = Return status_ok.
Proof.
  destruct (listed_ids_are_accepted sample_world) as (Hseason & _).
  destruct (Hseason (fst (list_seasons sample_world))
              (map season_out (season (db sample_world)))
              (season_out (mkDocument oid_a year_one))
              eq_refl (or_introl eq_refl)) as (Hupdate & Hdelete).
  split; [exact (Hupdate sabbatical eq_refl eq_refl)|exact Hdelete].
Defined.

Lemma created_is_listed_witness :
  exists outs,
    snd (list_seasons (fst (create_season oid_c sabbatical sample_world))) = Return outs /\
    In (SeasonOut.mk (ObjectId_str oid_c) sabbatical) outs /\
    length outs = 3.
Proof.
  destruct (created_is_listed sample_world) as (Hseason & _).
  apply (Hseason oid_c sabbatical). reflexivity.
Defined.

(* ================================================================= *)
(** ** After a delete *)

(** X7. With identifiers unique, what was deleted is gone: after a delete
    that returned, a second delete with the same identifier answers 404,
    and so does a season update with it that sets neither date. *)
Theorem deleted_is_gone (w : World) :
  unique_ids w ->
  (forall season_id w1,
      delete_season season_id w = (w1, Return status_ok) ->
      status_of (snd (delete_season season_id w1)) = 404%Z /\
      forall payload,
        SeasonIn.start_date payload = None -> SeasonIn.end_date payload = None ->
        status_of (snd (update_season season_id payload w1)) = 404%Z)
  /\ (forall episode_id w1,
      delete_episode episode_id w = (w1, Return status_ok) ->
      status_of (snd (delete_episode episode_id w1)) = 404%Z).
Proof.
  intros [Hs He]. split.
  - intros season_id w1 H.
    destruct (delete_season_cases season_id w)
      as [[_ E]|[(_ & _ & E)|(oid & b & d & a & Hid & _ & Hc & _ & Hd & E)]];
      rewrite E in H; try discriminate.
    injection H as Hw1. rewrite Hc in Hs.
    destruct (unique_after_removal _ b a d Hs) as [_ Hgone]. rewrite Hd in Hgone.
    assert (stored oid (season (db w1)) = false) as Hgone1
      by (rewrite <- Hw1; exact Hgone).
    pose proof (ObjectId_init_new _ _ Hid) as Hn.
    split; [|intros payload Hstart Hend].
    + rewrite (delete_season_run _ _ w1 Hn), by_binary_id.
      rewrite (delete_one_miss _ _ _ Hgone1). reflexivity.
    + assert (SeasonIn_encodes payload = true) as Henc
        by (apply SeasonIn_encodes_undated; auto).
      rewrite (update_season_run _ _ payload w1 Hn). cbv zeta.
      rewrite Henc, by_binary_id.
      rewrite <- (stored_after_guard oid payload w1) in Hgone1.
      rewrite (find_one_and_update_miss _ _ _ _ Hgone1). reflexivity.
  - intros episode_id w1 H.
    destruct (delete_episode_cases episode_id w)
      as [[_ E]|[(_ & _ & E)|(oid & b & d & a & Hid & _ & Hc & _ & Hd & E)]];
      rewrite E in H; try discriminate.
    injection H as Hw1. rewrite Hc in He.
    destruct (unique_after_removal _ b a d He) as [_ Hgone]. rewrite Hd in Hgone.
    assert (stored oid (episode (db w1)) = false) as Hgone1
      by (rewrite <- Hw1; exact Hgone).
    pose proof (ObjectId_init_new _ _ Hid) as Hn.
    rewrite (delete_episode_run _ _ w1 Hn), by_binary_id.
    rewrite (delete_one_miss _ _ _ Hgone1). reflexivity.
Qed.

Lemma deleted_is_gone_witness :
  status_of (snd (delete_season (ObjectId_str oid_b)
                    (fst (delete_season (ObjectId_str oid_b) sample_world)))) = 404%Z /\
  status_of (snd (update_season (ObjectId_str oid_b) sabbatical
                    (fst (delete_season (ObjectId_str oid_b) sample_world)))) = 404%Z.
Proof.
  assert (unique_ids sample_world) as H.
  { split; cbn; repeat constructor; cbn; intros E;
      repeat (destruct E as [E|E]; [discriminate E|]); exact E. }
  destruct (deleted_is_gone sample_world H) as (Hseason & _).
  destruct (Hseason (ObjectId_str oid_b)
              (fst (delete_season (ObjectId_str oid_b) sample_world)) eq_refl)
    as (Hdelete & Hupdate).
  split; [exact Hdelete|exact (Hupdate sabbatical eq_refl eq_refl)].
Defined.

Lemma orphan_filter_none (s : str) (c : list (Document EpisodeIn.t)) :
  filter (by_season_id (Some s))
         (coll_update_many (by_season_id (Some s)) (EpisodeIn.set_season_id None) c)
  = [].
Proof.
  unfold coll_update_many. induction c as [|e c IH]; cbn; [reflexivity|].
  destruct (by_season_id (Some s) e) eqn:E; cbn.
  - exact IH.
  - rewrite E. exact IH.
Qed.

Lemma orphan_filter_unsorted (s : str) (c : list (Document EpisodeIn.t)) :
  filter (by_season_id None)
         (coll_update_many (by_season_id (Some s)) (EpisodeIn.set_season_id None) c)
  = map (set_fields (EpisodeIn.set_season_id None))
        (filter (fun d => by_season_id None d || by_season_id (Some s) d) c).
Proof.
  unfold coll_update_many. induction c as [|e c IH]; cbn; [reflexivity|].
  destruct (by_season_id (Some s) e) eqn:E.
  - rewrite orb_true_r. cbn. rewrite IH. reflexivity.
  - rewrite orb_false_r. destruct (by_season_id None e) eqn:E'; [|exact IH].
    cbn. rewrite IH. f_equal.
    unfold by_season_id in E'. destruct e as [i f]. cbn in E'.
    destruct f as [t da r pp sid ok]. cbn in E'.
    destruct sid; [discriminate|]. reflexivity.
Qed.

(** X8. After a season delete that returned, listing the episodes of the
    identifier that was passed returns nothing, and the unsorted listing
    returns, in their stored order, the episodes that were unsorted
    together with those that named that identifier, all with a null
    [season_id]. *)
Theorem deleted_season_episodes_are_unsorted (w : World) (season_id : str) (w1 : World) :
  delete_season season_id w = (w1, Return status_ok) ->
  snd (list_episodes (Some season_id) false w1) = Return [] /\
  forall any,
    snd (list_episodes any true w1)
    = Return (map (fun d =>
                     EpisodeOut.mk (ObjectId_str (_id d))
                                   (EpisodeIn.set_season_id None (fields d)))
                (filter (fun d =>
                           is_none (EpisodeIn.season_id (fields d))
                           || (if option_str_dec (EpisodeIn.season_id (fields d))
                                    (Some season_id)
                               then true else false))
                        (episode (db w)))).
Proof.
  intros H.
  destruct (delete_season_cases season_id w)
    as [[_ E]|[(_ & _ & E)|(oid & b & d & a & _ & _ & _ & _ & _ & E)]];
    rewrite E in H; try discriminate.
  injection H as <-. split; [|intros any]; rewrite list_episodes_run;
    cbn [snd db episode season_id_query].
  - rewrite orphan_filter_none. reflexivity.
  - rewrite orphan_filter_unsorted, map_map. do 2 f_equal.
    apply filter_ext. intros e. f_equal.
    unfold by_season_id.
    destruct (option_str_dec _ _) as [Eq|Ne].
    + apply option_str_eqb_eq, Eq.
    + destruct (option_str_eqb _ _) eqn:Eb; [|reflexivity].
      apply option_str_eqb_eq in Eb. contradiction.
Qed.

Lemma deleted_season_episodes_are_unsorted_witness :
  snd (list_episodes None true (fst (delete_season (ObjectId_str oid_b) sample_world)))
  = Return [EpisodeOut.mk (ObjectId_str oid_e) (EpisodeIn.set_season_id None day_1);
            EpisodeOut.mk (ObjectId_str oid_c) day_2].
Proof.
  destruct (deleted_season_episodes_are_unsorted sample_world (ObjectId_str oid_b)
              (fst (delete_season (ObjectId_str oid_b) sample_world)) eq_refl)
    as (_ & Hunsorted).
  rewrite (Hunsorted None). reflexivity.
Defined.

(** X9. The orphaning of [delete_season] matches the path string as it
    was spelled, not the identifier it denotes: when the path is another
    spelling of a stored identifier than its string form, the season is
    deleted all the same, and every episode whose [season_id] is the
    string form is left as it was, still naming the deleted season. *)
Theorem delete_season_matches_spelling (w : World) (season_id : str) (oid : ObjectId) :
  ObjectId_init season_id = Some oid ->
  season_id <> ObjectId_str oid ->
  stored oid (season (db w)) = true ->
  exists w1 before d after,
    delete_season season_id w = (w1, Return status_ok) /\
    season (db w) = before ++ d :: after /\ _id d = oid /\
    season (db w1) = before ++ after /\
    Forall2 (fun e e' =>
               EpisodeIn.season_id (fields e) = Some (ObjectId_str oid) -> e' = e)
            (episode (db w)) (episode (db w1)).
Proof.
  intros Hid Hne Hs.
  destruct (delete_season_cases season_id w)
    as [[E _]|[(_ & Hnone & _)|(o & b & d & a & E & _ & Hc & _ & Hd & Hrun)]].
  { rewrite (ObjectId_init_new _ _ Hid) in E. discriminate. }
  { specialize (Hnone _ Hid). congruence. }
  rewrite Hid in E. injection E as <-.
  eexists. exists b, d, a. split; [exact Hrun|]. cbn [db season episode].
  split; [exact Hc|]. split; [exact Hd|]. split; [reflexivity|].
  eapply Forall2_impl; [|apply update_many_orphans].
  cbn. intros e e' Ho Hcanon.
  destruct Ho as (_ & _ & _ & _ & _ & _ & Hkeep).
  apply Hkeep. rewrite Hcanon. intros H. injection H as H. congruence.
Qed.

Lemma delete_season_matches_spelling_witness :
  exists w1,
    delete_season upper_b sample_world = (w1, Return status_ok) /\
    season (db w1) = [mkDocument oid_a year_one] /\
    episode (db w1) = episode (db sample_world).
Proof.
  assert (upper_b <> ObjectId_str oid_b) as Hne by (vm_compute; discriminate).
  destruct (delete_season_matches_spelling sample_world upper_b oid_b
              eq_refl Hne eq_refl)
    as (w1 & b & d & a & Hrun & _).
  exists w1. split; [exact Hrun|].
  vm_compute in Hrun. injection Hrun as <-. split; reflexivity.
Defined.

(* ================================================================= *)
(** ** Updating twice *)

Lemma deactivate_twice (c : list (Document SeasonIn.t)) :
  map deactivate (map deactivate c) = map deactivate c.
Proof. rewrite map_map. reflexivity. Qed.

Lemma deactivated_part (c l1 l2 : list (Document SeasonIn.t)) :
  map deactivate c = l1 ++ l2 -> map deactivate l1 = l1 /\ map deactivate l2 = l2.
Proof.
  intros H. apply map_eq_app in H as (a & b & _ & <- & <-).
  split; apply deactivate_twice.
Qed.

Lemma find_one_and_update_again (F : Type) (oid : ObjectId) (payload : F)
    (before after : list (Document F)) (d : Document F) :
  stored oid before = false -> _id d = oid ->
  coll_find_one_and_update (by_id oid) (fun _ => payload) (before ++ d :: after)
  = (before ++ mkDocument oid payload :: after, Some (mkDocument oid payload)).
Proof.
  intros Hb Hd.
  rewrite (find_one_and_update_at F (by_id oid) _ before d after Hb).
  - unfold set_fields. rewrite Hd. reflexivity.
  - unfold by_id. rewrite Hd. apply oid_eqb_refl.
Qed.

Lemma guard_twice payload w t :
  season (db (after_guard payload (mkWorld (db (after_guard payload w)) t)))
  = season (db (after_guard payload w)).
Proof.
  unfold after_guard. destruct (SeasonIn.is_active payload); cbn [db season];
    [apply deactivate_twice|reflexivity].
Qed.

Lemma guard_after_hit payload w oid b d a eps t :
  season (db (after_guard payload w)) = b ++ d :: a ->
  season (db (after_guard payload
                (mkWorld (mkDatabase (b ++ mkDocument oid payload :: a) eps) t)))
  = b ++ (if SeasonIn.is_active payload
          then deactivate (mkDocument oid payload)
          else mkDocument oid payload) :: a.
Proof.
  unfold after_guard. destruct (SeasonIn.is_active payload); cbn [db season];
    [|reflexivity].
  intros Hc. destruct (deactivated_part _ _ _ Hc) as [Hb Ha].
  cbn [map] in Ha. injection Ha as _ Ha.
  rewrite map_app. cbn [map]. rewrite Hb, Ha. reflexivity.
Qed.

Lemma guard_again payload w :
  db (after_guard payload (after_guard payload w)) = db (after_guard payload w).
Proof.
  unfold after_guard. destruct (SeasonIn.is_active payload); [|reflexivity].
  cbn [db season episode]. rewrite deactivate_twice. reflexivity.
Qed.

Lemma unmatched_after_guard (id : str) (bs : list byte) payload w :
  ObjectId_new id = Some bs ->
  (forall d, In d (season (db w)) -> ObjectId_init id <> Some (_id d)) ->
  existsb (by_binary bs) (season (db (after_guard payload w))) = false.
Proof.
  intros Hn Hno.
  destruct (existsb _ _) eqn:E; [|reflexivity].
  apply existsb_exists in E as (x & Hx & Hq).
  pose proof (matched_is_proper _ _ _ x Hn Hq) as Hid.
  pose proof (stored_of_In _ x _ Hx) as Hs. rewrite stored_after_guard in Hs.
  apply stored_iff_In, in_map_iff in Hs as (d & Hd & Hin).
  exfalso. apply (Hno d Hin). rewrite Hd. exact Hid.
Qed.

(** X10. Updates are idempotent: repeating an update with the same
    identifier and the same fields answers as the first did and leaves
    both collections as the first left them. *)
Theorem update_twice_is_update_once (w : World) (id : str) :
  (forall payload,
      let once := update_season id payload w in
      let twice := update_season id payload (fst once) in
      snd twice = snd once /\ db (fst twice) = db (fst once))
  /\ (forall payload,
      let once := update_episode id payload w in
      let twice := update_episode id payload (fst once) in
      snd twice = snd once /\ db (fst twice) = db (fst once)).
Proof.
  split; intros payload; cbv zeta.
  - destruct (update_season_cases id payload w)
      as [[Hn E]|[(Hnew & Henc & E)|[(Hnew & Henc & _ & Hno & E)
         |(oid & b & d & a & Hid & Henc & Hs & Hc & Hb & Hd & E)]]];
      rewrite E; cbn [fst snd].
    + rewrite E. auto.
    + destruct (ObjectId_new id) as [bs|] eqn:Hn; [|contradiction].
      rewrite (update_season_run _ _ payload _ Hn). cbv zeta. rewrite Henc.
      split; [reflexivity|apply guard_again].
    + destruct (ObjectId_new id) as [bs|] eqn:Hn; [|contradiction].
      rewrite (update_season_run _ _ payload _ Hn). cbv zeta.
      rewrite Henc, guard_twice, episode_after_guard. cbn [db].
      rewrite (find_one_and_update_miss _ _ _ _
                 (unmatched_after_guard _ _ payload w Hn Hno)), database_eta.
      auto.
    + rewrite (update_season_run _ _ payload _ (ObjectId_init_new _ _ Hid)). cbv zeta.
      rewrite Henc, by_binary_id.
      rewrite (guard_after_hit payload w oid b d a _ _ Hc), episode_after_guard.
      cbn [db episode].
      rewrite find_one_and_update_again;
        [|exact Hb|destruct (SeasonIn.is_active payload); reflexivity].
      auto.
  - destruct (update_episode_cases id payload w) as [[Hn E]|[Hn E]];
      rewrite E; cbn [fst snd]; rewrite E; auto.
Qed.

(* ================================================================= *)
(** ** Which collection a route touches *)

(** X11. Each route leaves alone what is not its own: the season create
    and update never change the episodes, the episode create, update and
    delete never change the seasons, and the two listings change neither
    collection; this holds whether the route returns or raises. *)
Theorem routes_keep_to_their_collection (w : World) :
  (forall new_oid payload,
      episode (db (fst (create_season new_oid payload w))) = episode (db w)) /\
  (forall season_id payload,
      episode (db (fst (update_season season_id payload w))) = episode (db w)) /\
  (forall new_oid payload,
      season (db (fst (create_episode new_oid payload w))) = season (db w)) /\
  (forall episode_id payload,
      season (db (fst (update_episode episode_id payload w))) = season (db w)) /\
  (forall episode_id,
      season (db (fst (delete_episode episode_id w))) = season (db w)) /\
  db (fst (list_seasons w)) = db w /\
  (forall season_id unsorted, db (fst (list_episodes season_id unsorted w)) = db w).
Proof.
  split; [|split; [|split; [|split; [|split; [|split]]]]].
  - intros new_oid payload. rewrite create_season_run. cbv zeta.
    destruct (stored new_oid (season (db w))); cbn [fst db episode];
      apply episode_after_guard.
  - intros season_id payload.
    destruct (update_season_cases season_id payload w)
      as [[_ ->]|[(_ & _ & ->)|[(_ & _ & _ & _ & ->)
         |(oid & b & d & a & _ & _ & _ & _ & _ & _ & ->)]]];
      cbn [fst db episode]; auto using episode_after_guard.
  - intros new_oid payload. rewrite create_episode_run.
    destruct (stored new_oid (episode (db w))); reflexivity.
  - intros episode_id payload.
    destruct (update_episode_cases episode_id payload w) as [[_ ->]|[_ ->]];
      reflexivity.
  - intros episode_id.
    destruct (delete_episode_cases episode_id w)
      as [[_ ->]|[(_ & _ & ->)|(oid & b & d & a & _ & _ & _ & _ & _ & ->)]];
      reflexivity.
  - rewrite list_seasons_run. reflexivity.
  - intros. apply list_episodes_db.
Qed.

(** X12. The episode create and update do not look at the seasons: what
    they answer and what they make of the episode collection is the same
    whatever seasons are stored, so a [season_id] that names no season is
    stored as it is sent. *)
Theorem episode_writes_ignore_seasons
    (seasons1 seasons2 : list (Document SeasonIn.t))
    (episodes : list (Document EpisodeIn.t)) (calls : list StoreCall) :
  let w1 := mkWorld (mkDatabase seasons1 episodes) calls in
  let w2 := mkWorld (mkDatabase seasons2 episodes) calls in
  (forall new_oid payload,
      snd (create_episode new_oid payload w1) = snd (create_episode new_oid payload w2) /\
      episode (db (fst (create_episode new_oid payload w1)))
      = episode (db (fst (create_episode new_oid payload w2))) /\
      (stored new_oid episodes = false ->
       In (mkDocument new_oid payload)
          (episode (db (fst (create_episode new_oid payload w1))))))
  /\ (forall episode_id payload,
      snd (update_episode episode_id payload w1)
      = snd (update_episode episode_id payload w2) /\
      episode (db (fst (update_episode episode_id payload w1)))
      = episode (db (fst (update_episode episode_id payload w2)))).
Proof.
  cbv zeta. split.
  - intros new_oid payload. rewrite !create_episode_run. cbn [db episode season].
    destruct (stored new_oid episodes); cbn [fst snd db episode].
    + repeat split. discriminate.
    + repeat split. intros _. apply in_or_app. right. left. reflexivity.
  - intros episode_id payload.
    destruct (ObjectId_new episode_id) as [bs|] eqn:Hn.
    + rewrite !(update_episode_run _ _ payload _ Hn). split; reflexivity.
    + rewrite !(update_episode_refused _ payload _ Hn). split; reflexivity.
Qed.

Lemma episode_writes_ignore_seasons_witness :
  stored oid_a (episode sample_db) = false /\
  In (mkDocument oid_a day_1)
     (episode (db (fst (create_episode oid_a day_1
                          (mkWorld (mkDatabase [] (episode sample_db)) []))))).
Proof.
  split; [reflexivity|].
  destruct (episode_writes_ignore_seasons [] (season sample_db) (episode sample_db) [])
    as (Hcreate & _).
  destruct (Hcreate oid_a day_1) as (_ & _ & Hin).
  apply Hin. reflexivity.
Defined.

(** X13. A successful episode delete changes exactly one document: it
    takes out the first episode that carries the identifier, and every
    other episode stays where it was.  An episode update changes none:
    whatever it is given, it leaves the world as it found it and does not
    return. *)
Theorem episode_delete_takes_one_update_none (w : World) (episode_id : str) :
  (forall w1,
      delete_episode episode_id w = (w1, Return status_ok) ->
      exists oid before d after,
        ObjectId_init episode_id = Some oid /\
        episode (db w) = before ++ d :: after /\
        _id d = oid /\ stored oid before = false /\
        episode (db w1) = before ++ after /\
        S (length (episode (db w1))) = length (episode (db w)))
  /\ (forall payload,
      fst (update_episode episode_id payload w) = w /\
      forall out, snd (update_episode episode_id payload w) <> Return out).
Proof.
  split.
  - intros w1 H.
    destruct (delete_episode_cases episode_id w)
      as [[_ E]|[(_ & _ & E)|(oid & b & d & a & Hid & _ & Hc & Hb & Hd & E)]];
      rewrite E in H; try discriminate.
    injection H as <-. exists oid, b, d, a. cbn [db episode].
    repeat split; auto. rewrite Hc, !length_app. cbn. lia.
  - intros payload.
    destruct (update_episode_cases episode_id payload w) as [[_ ->]|[_ ->]];
      split; [reflexivity|discriminate|reflexivity|discriminate].
Qed.

Lemma episode_delete_takes_one_update_none_witness :
  (exists oid before d after,
      ObjectId_init (ObjectId_str oid_e) = Some oid /\
      episode (db sample_world) = before ++ d :: after /\
      _id d = oid /\ stored oid before = false /\
      episode (db (fst (delete_episode (ObjectId_str oid_e) sample_world)))
      = before ++ after /\
      S (length (episode (db (fst (delete_episode (ObjectId_str oid_e) sample_world)))))
      = length (episode (db sample_world))) /\
  fst (update_episode (ObjectId_str oid_e) day_2 sample_world) = sample_world /\
  snd (update_episode (ObjectId_str oid_e) day_2 sample_world)
  <> Return (EpisodeOut.mk (ObjectId_str oid_e) day_2).
Proof.
  destruct (episode_delete_takes_one_update_none sample_world (ObjectId_str oid_e))
    as (Hdelete & Hupdate).
  destruct (Hupdate day_2) as (Hsame & Hraises).
  split; [apply Hdelete; reflexivity|].
  split; [exact Hsame|apply Hraises].
Defined.

(* ================================================================= *)
(** ** Validation and what it lets through *)

(** X14. A season is active unless it says otherwise: a body with a
    title and no [is_active] validates to an active season, so posting it
    with a new identifier makes it the one active season. *)
Theorem season_is_active_by_default
    (b : SeasonBody.t) (title : str) (w : World) (new_oid : ObjectId) :
  SeasonBody.title b = Value title ->
  SeasonBody.is_active b = Missing ->
  SeasonBody.description b <> Unparsable ->
  SeasonBody.start_date b <> Unparsable ->
  SeasonBody.end_date b <> Unparsable ->
  stored new_oid (season (db w)) = false ->
  exists w1 payload,
    validate_SeasonIn b = inr payload /\
    SeasonIn.title payload = title /\
    SeasonIn.is_active payload = true /\
    post_seasons new_oid b w = (w1, Return (SeasonOut.mk (ObjectId_str new_oid) payload)) /\
    active (season (db w1)) = [mkDocument new_oid payload].
Proof.
  intros Ht Ha Hd Hs He Hnew.
  assert (exists payload,
             validate_SeasonIn b = inr payload /\
             SeasonIn.title payload = title /\
             SeasonIn.is_active payload = true) as (payload & Hv & Htitle & Hact).
  { unfold validate_SeasonIn. rewrite Ht, Ha. cbn [field_required field_default].
    destruct (SeasonBody.description b), (SeasonBody.start_date b),
      (SeasonBody.end_date b); try contradiction; cbn; eauto. }
  unfold post_seasons, with_body. rewrite Hv, create_season_run. cbv zeta.
  rewrite Hnew. eexists. exists payload.
  repeat (split; [first [exact Hv|exact Htitle|exact Hact|reflexivity]|]).
  cbn [db season]. rewrite (after_guard_active _ w Hact), active_app, active_deactivated.
  cbn. rewrite Hact. reflexivity.
Qed.

Lemma season_is_active_by_default_witness :
  exists w1 payload,
    validate_SeasonIn year_three_body = inr payload /\
    SeasonIn.title payload = lit "Year Three" /\
    SeasonIn.is_active payload = true /\
    post_seasons oid_c year_three_body sample_world
    = (w1, Return (SeasonOut.mk (ObjectId_str oid_c) payload)) /\
    active (season (db w1)) = [mkDocument oid_c payload].
Proof.
  apply (season_is_active_by_default year_three_body (lit "Year Three")
           sample_world oid_c);
    first [reflexivity | discriminate].
Defined.

(* ================================================================= *)
(** ** More on the diagnostic handler *)

Lemma connected_is_not_not_connected : lit "Connected" <> lit "Not Connected".
Proof. vm_compute. discriminate. Qed.

Lemma set_is_not_not_set : check_mark ++ lit " Set" <> cross_mark ++ lit " Not Set".
Proof. vm_compute. discriminate. Qed.

(** X16. In the payload of [test_database], [database_url] says set
    exactly when [db] is not [None], also when an error is reported;
    [connection_status] says connected exactly when moreover the name of
    the database could be read; and [database_name] is then that name, or
    the default when the object has no such attribute. *)
Theorem test_database_reports_connection (db : option DbObject) (r : TestResponse) :
  test_database db = Return r ->
  (database_url r = check_mark ++ lit " Set" <-> db <> None) /\
  (connection_status r = lit "Connected" <->
   exists d, db = Some d /\ forall e, name d <> AttrRaises e) /\
  (forall d v, db = Some d -> name d = AttrValue v -> database_name r = v) /\
  (forall d, db = Some d -> name d = AttrMissing ->
             database_name r = check_mark ++ lit " Connected").
Proof.
  destruct db as [[n l]|].
  - destruct n as [v| |e]; [destruct l as [e|names]..|];
      intros H; injection H as <-;
      cbn [database_url connection_status database_name].
    all: split; [split; [discriminate|reflexivity]|].
    all: split;
      [|split; [intros d x Hd|intros d Hd]; injection Hd as <-; cbn [name];
        intros Hn; try discriminate Hn; try injection Hn as <-; reflexivity].
    all: split.
    all: try (intros _; eexists; split; [reflexivity|]; cbn [name]; discriminate).
    all: try reflexivity.
    + intros Hc. exfalso. exact (connected_is_not_not_connected (eq_sym Hc)).
    + intros (d & Hd & Hn). injection Hd as <-. exfalso. exact (Hn e eq_refl).
  - intros H. injection H as <-.
    cbn [database_url connection_status database_name initial_response].
    split; [split; [intros Hc; exfalso; exact (set_is_not_not_set (eq_sym Hc))
                   |intros Hc; contradiction]|].
    split; [split; [intros Hc; exfalso; exact (connected_is_not_not_connected (eq_sym Hc))
                   |intros (d & Hd & _); discriminate]|].
    split; intros; discriminate.
Qed.

Lemma test_database_reports_connection_witness :
  exists r,
    test_database (Some failing_db) = Return r /\
    database_url r = check_mark ++ lit " Set" /\
    connection_status r = lit "Connected" /\
    database_name r = lit "lifestory".
Proof.
  eexists. split; [reflexivity|].
  destruct (test_database_reports_connection (Some failing_db) _ eq_refl)
    as (Hurl & Hstatus & Hname & _).
  split; [apply Hurl; discriminate|].
  split; [apply Hstatus; exists failing_db; split; [reflexivity|discriminate]|].
  apply (Hname failing_db); reflexivity.
Defined.

(* ================================================================= *)
(** ** Identifiers in the listings *)

Lemma unique_ids_filter (F : Type) (q : Document F -> bool) (c : list (Document F)) :
  NoDup (map (@_id F) c) -> NoDup (map (@_id F) (filter q c)).
Proof.
  induction c as [|x c IH]; cbn; [auto|].
  intros H. inversion H as [|? ? Hx Hc]; subst.
  destruct (q x); cbn; [|auto].
  constructor; [|auto].
  intros Hin. apply Hx. apply in_map_iff in Hin as (d & E & Hd).
  apply filter_In in Hd as [Hd _]. apply in_map_iff. eauto.
Qed.

Lemma unique_str_ids (l : list ObjectId) : NoDup l -> NoDup (map ObjectId_str l).
Proof.
  induction l as [|x l IH]; cbn; intros H; [constructor|].
  inversion H as [|? ? Hx Hl]; subst. constructor; [|auto].
  intros Hin. apply in_map_iff in Hin as (y & E & Hy).
  apply ObjectId_str_inj in E. subst y. contradiction.
Qed.

(** X17. With identifiers unique in the store, the [id]s of a listing are
    pairwise distinct: no two entries of [list_seasons], and no two
    entries of [list_episodes] under any filter, share their [id]. *)
Theorem listed_ids_are_distinct (w : World) :
  unique_ids w ->
  (forall outs,
      snd (list_seasons w) = Return outs -> NoDup (map SeasonOut.id outs)) /\
  (forall season_id unsorted outs,
      snd (list_episodes season_id unsorted w) = Return outs ->
      NoDup (map EpisodeOut.id outs)).
Proof.
  intros [Hs He]. split.
  - intros outs H. rewrite list_seasons_run in H. injection H as <-.
    rewrite map_map. cbn [season_out SeasonOut.id].
    rewrite <- (map_map (@_id SeasonIn.t) ObjectId_str).
    apply unique_str_ids, Hs.
  - intros season_id unsorted outs H. rewrite list_episodes_run in H.
    injection H as <-. rewrite map_map.
    cbn [EpisodeOut_init to_str_id fst EpisodeOut.id].
    rewrite <- (map_map (@_id EpisodeIn.t) ObjectId_str).
    apply unique_str_ids, unique_ids_filter, He.
Qed.

Lemma listed_ids_are_distinct_witness :
  NoDup (map SeasonOut.id (map season_out (season (db sample_world)))).
Proof.
  assert (unique_ids sample_world) as H.
  { split; cbn; repeat constructor; cbn; intros E;
      repeat (destruct E as [E|E]; [discriminate E|]); exact E. }
  destruct (listed_ids_are_distinct sample_world H) as (Hseason & _).
  apply Hseason. reflexivity.
Defined.

(* ================================================================= *)
(** ** Create, then delete *)

Lemma delete_one_appended (F : Type) (oid : ObjectId) (c : list (Document F))
    (d : Document F) :
  stored oid c = false -> _id d = oid ->
  coll_delete_one (by_id oid) (c ++ [d]) = (c, 1).
Proof.
  intros Hc Hd.
  rewrite (delete_one_at F (by_id oid) c d [] Hc).
  - rewrite app_nil_r. reflexivity.
  - unfold by_id. rewrite Hd. apply oid_eqb_refl.
Qed.

(** X18. A create is undone by the delete of the identifier it returned:
    the created document comes back with the fields sent and the string
    form of its identifier; deleting by that [id] returns, the episode
    delete leaving both collections as they were before the create, the
    season delete leaving the seasons as the create found them once it
    had made its deactivation, if any. *)
Theorem create_then_delete (w : World) (new_oid : ObjectId) :
  (forall payload w1 out,
      create_episode new_oid payload w = (w1, Return out) ->
      out = EpisodeOut.mk (ObjectId_str new_oid) payload /\
      exists w2,
        delete_episode (EpisodeOut.id out) w1 = (w2, Return status_ok) /\
        db w2 = db w)
  /\ (forall payload w1 out,
      create_season new_oid payload w = (w1, Return out) ->
      out = SeasonOut.mk (ObjectId_str new_oid) payload /\
      exists w2,
        delete_season (SeasonOut.id out) w1 = (w2, Return status_ok) /\
        (SeasonIn.is_active payload = true ->
         season (db w2) = map deactivate (season (db w))) /\
        (SeasonIn.is_active payload = false -> season (db w2) = season (db w))).
Proof.
  split.
  - intros payload w1 out H. rewrite create_episode_run in H.
    destruct (stored new_oid (episode (db w))) eqn:Hs; [discriminate|].
    injection H as <- <-. split; [reflexivity|]. cbn [EpisodeOut.id].
    rewrite (delete_episode_run _ _ _ (ObjectId_new_str new_oid)), by_binary_id.
    cbn [db episode season].
    rewrite (delete_one_appended _ new_oid _ (mkDocument new_oid payload) Hs eq_refl).
    cbn [Nat.eqb].
    eexists. split; [reflexivity|]. cbn [db]. apply database_eta.
  - intros payload w1 out H. rewrite create_season_run in H. cbv zeta in H.
    destruct (stored new_oid (season (db w))) eqn:Hs; [discriminate|].
    injection H as <- <-. split; [reflexivity|]. cbn [SeasonOut.id].
    rewrite (delete_season_run _ _ _ (ObjectId_new_str new_oid)), by_binary_id.
    cbn [db episode season].
    rewrite <- (stored_after_guard new_oid payload w) in Hs.
    rewrite (delete_one_appended _ new_oid _ (mkDocument new_oid payload) Hs eq_refl).
    cbn [Nat.eqb].
    eexists. split; [reflexivity|]. cbn [db season]. split; intros Ha.
    + apply (after_guard_active _ w Ha).
    + rewrite (after_guard_inactive _ w Ha). reflexivity.
Qed.

Lemma create_then_delete_witness :
  exists w2,
    delete_episode (ObjectId_str oid_a)
      (fst (create_episode oid_a day_2 sample_world)) = (w2, Return status_ok) /\
    db w2 = db sample_world.
Proof.
  destruct (create_then_delete sample_world oid_a) as (Hepisode & _).
  destruct (Hepisode day_2 (fst (create_episode oid_a day_2 sample_world))
              (EpisodeOut.mk (ObjectId_str oid_a) day_2) eq_refl)
    as (_ & Hundo).
  exact Hundo.
Defined.

(* ================================================================= *)
(** ** No season active *)

Lemma same_id_same_document (F : Type) (before after : list (Document F)) x d :
  NoDup (map (@_id F) (before ++ x :: after)) ->
  In d (before ++ x :: after) -> _id d = _id x -> d = x.
Proof.
  rewrite map_app. cbn [map]. intros Hnd Hin E.
  pose proof (NoDup_remove_2 _ _ _ Hnd) as Hout.
  apply in_app_or in Hin as [Hin|[Heq|Hin]]; [|auto|].
  - exfalso. apply Hout, in_or_app. left. rewrite <- E. apply in_map, Hin.
  - exfalso. apply Hout, in_or_app. right. rewrite <- E. apply in_map, Hin.
Qed.

(** X19. The rule is at most one active season, not exactly one: with
    identifiers unique and at most one season active, updating the active
    season with [is_active = false] and neither date set returns and
    leaves no season active. *)
Theorem deactivating_the_active_season_leaves_none
    (w : World) (d : Document SeasonIn.t) (payload : SeasonIn.t) :
  unique_ids w -> at_most_one_active w ->
  In d (season (db w)) -> SeasonIn.is_active (fields d) = true ->
  SeasonIn.is_active payload = false ->
  SeasonIn.start_date payload = None -> SeasonIn.end_date payload = None ->
  exists w1,
    update_season (ObjectId_str (_id d)) payload w
    = (w1, Return (SeasonOut.mk (ObjectId_str (_id d)) payload)) /\
    active (season (db w1)) = [].
Proof.
  intros [Hu _] Hone Hd Hact Hin Hstart Hend.
  pose proof (ObjectId_init_str (_id d)) as Hid.
  pose proof (ObjectId_new_str (_id d)) as Hn.
  pose proof (stored_of_In _ d _ Hd) as Hs.
  assert (SeasonIn_encodes payload = true) as Henc
    by (apply SeasonIn_encodes_undated; auto).
  destruct (update_season_cases (ObjectId_str (_id d)) payload w)
    as [[E _]|[(_ & E & _)|[(_ & _ & Hnone & _)
       |(oid & b & x & a & E & _ & _ & Hc & _ & Hx & Hrun)]]].
  { congruence. }
  { congruence. }
  { specialize (Hnone _ Hid). congruence. }
  rewrite Hid in E. injection E as <-.
  eexists. split; [exact Hrun|]. cbn [db season].
  rewrite (after_guard_inactive _ w Hin) in Hc.
  rewrite Hc in Hu, Hd.
  assert (d = x) as <- by (apply (same_id_same_document _ b a x d Hu Hd); congruence).
  unfold at_most_one_active in Hone. rewrite Hc, active_split in Hone.
  apply length_zero_iff_nil. rewrite active_split.
  cbn in Hone |- *. rewrite Hact in Hone. rewrite Hin. cbn in Hone |- *. lia.
Qed.

Lemma deactivating_the_active_season_leaves_none_witness :
  exists w1,
    update_season (ObjectId_str oid_a) sabbatical
      (mkWorld (mkDatabase [mkDocument oid_a year_one] []) [])
    = (w1, Return (SeasonOut.mk (ObjectId_str oid_a) sabbatical)) /\
    active (season (db w1)) = [].
Proof.
  apply (deactivating_the_active_season_leaves_none
           (mkWorld (mkDatabase [mkDocument oid_a year_one] []) [])
           (mkDocument oid_a year_one) sabbatical).
  - split; cbn; repeat constructor. intros [].
  - unfold at_most_one_active. cbn. lia.
  - left. reflexivity.
  - reflexivity.
  - reflexivity.
  - reflexivity.
  - reflexivity.
Defined.
